(** * FileManager: a shallow embedding of the file-management component

    The component under study is [src/components/FileManager.tsx].  Its
    pure helpers ([getFileType], [getFolderFromPath], [formatFileSize],
    the [filteredFiles] view) are embedded as functions; its event
    handlers ([loadFiles], [handleFileUpload], [handleFileDelete],
    [handleFolderCreate]) are embedded as state transformers over a record
    that holds the React state of the component together with a log of
    the effects the handler performs (toasts, storage calls, progress
    updates).  The answers of the storage backend are inputs of the
    handlers.  A handler is run from start to end as one transition, the
    way the single-threaded event loop runs it when no other event arrives
    while it waits for the backend.  The optional callback props
    ([onFileUpload], [onFileDelete], [onFolderCreate]) are taken to be
    absent.

    Strings are sequences of 8-bit code units read as Latin-1, the part of
    the UTF-16 code-unit range on which the case mapping and the white
    space of ECMAScript are modelled here. *)

From Stdlib Require Import Bool Arith List Ascii String NArith ZArith QArith Lia.
From Stdlib Require Import DecimalString DecimalN DecimalNat DecimalFacts.
Import ListNotations.

Close Scope Q_scope.
Local Open Scope list_scope.
Local Open Scope string_scope.

(** ** ECMAScript primitives used by the component *)

Module JS.

(** [String.prototype.toLowerCase] on one code unit: A-Z and the
    Latin-1 capitals U+00C0-U+00DE (but not the multiplication sign
    U+00D7) move up by 32, everything else is left alone. *)
Definition lower_char (c : ascii) : ascii :=
  let n := nat_of_ascii c in
  if (((65 <=? n) && (n <=? 90))
      || ((192 <=? n) && (n <=? 222) && negb (n =? 215)))%nat
  then ascii_of_nat (n + 32)
  else c.

Fixpoint toLowerCase (s : string) : string :=
  match s with
  | EmptyString => EmptyString
  | String c s' => String (lower_char c) (toLowerCase s')
  end.

(** White space and line terminators of ECMAScript below U+0100:
    TAB, LF, VT, FF, CR, SP and NBSP. *)
Definition is_white (c : ascii) : bool :=
  let n := nat_of_ascii c in
  (((9 <=? n) && (n <=? 13)) || (n =? 32) || (n =? 160))%nat.

Fixpoint trimStart (s : string) : string :=
  match s with
  | EmptyString => EmptyString
  | String c s' => if is_white c then trimStart s' else s
  end.

(** [trimEnd] keeps a character when it is not white space or when
    something survives to its right. *)
Fixpoint trimEnd (s : string) : string :=
  match s with
  | EmptyString => EmptyString
  | String c s' =>
      match trimEnd s' with
      | EmptyString => if is_white c then EmptyString else String c EmptyString
      | r => String c r
      end
  end.

Definition trim (s : string) : string := trimEnd (trimStart s).

(** Truthiness of a string: only the empty string is falsy. *)
Definition truthy (s : string) : bool :=
  match s with EmptyString => false | _ => true end.

(** [s.split(sep)] for a one-character separator: never the empty
    array; a string without separator is returned whole. *)
Fixpoint split (sep : ascii) (s : string) : list string :=
  match s with
  | EmptyString => [EmptyString]
  | String c s' =>
      if Ascii.eqb c sep then EmptyString :: split sep s'
      else match split sep s' with
           | [] => [String c EmptyString]
           | p :: ps => String c p :: ps
           end
  end.

(** [Array.prototype.pop], as far as its result goes: the last element,
    [undefined] on the empty array. *)
Fixpoint pop (l : list string) : option string :=
  match l with
  | [] => None
  | [x] => Some x
  | _ :: l' => pop l'
  end.

(** [Array.prototype.includes] on an array of strings. *)
Definition array_includes (l : list string) (x : string) : bool :=
  existsb (String.eqb x) l.

(** [String.prototype.includes]: [t] occurs in [s] as a substring. *)
Fixpoint includes (s t : string) : bool :=
  String.prefix t s
  || match s with
     | EmptyString => false
     | String _ s' => includes s' t
     end.

(** [x || d] where [x] may be [undefined]. *)
Definition or_else (x : option string) (d : string) : string :=
  match x with
  | Some s => if truthy s then s else d
  | None => d
  end.

(** Decimal numeral of a natural number, as a template literal prints
    an array length. *)
Definition string_of_nat (n : nat) : string :=
  NilEmpty.string_of_uint (Nat.to_uint n).

Definition string_of_N (n : N) : string :=
  NilEmpty.string_of_uint (N.to_uint n).

(** *** Numbers with two decimals

    [formatFileSize] only handles quotients [bytes / 1024^i], which a
    double holds exactly for every byte count below 2^53, and their
    roundings to two decimals.  Such a number is kept as its count of
    hundredths. *)
Inductive Number :=
| NaN
| Hundredths (n : N).

Definition digit_char (d : N) : ascii := ascii_of_N (48 + d).

Definition digit_of_char (c : ascii) : option N :=
  let n := N_of_ascii c in
  if ((48 <=? n) && (n <=? 57))%N then Some (n - 48)%N else None.

(** [(num / den).toFixed(2)]: the integer [n] for which [n / 100] is
    closest to the quotient, the larger one on a tie, printed with
    exactly two decimals. *)
Definition toFixed2 (num den : N) : string :=
  let n := ((200 * num + den) / (2 * den))%N in
  string_of_N (n / 100)
  ++ "."
  ++ String (digit_char ((n mod 100) / 10)) (String (digit_char (n mod 10)) "").

(** The longest prefix of decimal digits, as a numeral, and what
    follows it. *)
Fixpoint read_digits (s : string) : Decimal.uint * string :=
  match s with
  | EmptyString => (Decimal.Nil, EmptyString)
  | String c s' =>
      let k (f : Decimal.uint -> Decimal.uint) :=
        let (d, r) := read_digits s' in (f d, r) in
      if Ascii.eqb c "0" then k Decimal.D0
      else if Ascii.eqb c "1" then k Decimal.D1
      else if Ascii.eqb c "2" then k Decimal.D2
      else if Ascii.eqb c "3" then k Decimal.D3
      else if Ascii.eqb c "4" then k Decimal.D4
      else if Ascii.eqb c "5" then k Decimal.D5
      else if Ascii.eqb c "6" then k Decimal.D6
      else if Ascii.eqb c "7" then k Decimal.D7
      else if Ascii.eqb c "8" then k Decimal.D8
      else if Ascii.eqb c "9" then k Decimal.D9
      else (Decimal.Nil, s)
  end.

(** What follows the integer part [ip] (in hundredths): a point and
    one or two decimals, or nothing that counts. *)
Definition read_decimals (ip : N) (rest : string) : Number :=
  match rest with
  | String "." (String c1 rest') =>
      match digit_of_char c1 with
      | None => Hundredths ip
      | Some f1 =>
          match rest' with
          | String c2 _ =>
              match digit_of_char c2 with
              | None => Hundredths (ip + 10 * f1)
              | Some f2 => Hundredths (ip + 10 * f1 + f2)
              end
          | EmptyString => Hundredths (ip + 10 * f1)
          end
      end
  | _ => Hundredths ip
  end.

(** [parseFloat] on the numerals this component meets: an unsigned
    integer part, then possibly a point and one or two decimals;
    whatever follows the numeral is ignored, and a string that does not
    start with a digit gives [NaN].  Decimals beyond the second do not
    occur here and are not represented. *)
Definition parseFloat (s : string) : Number :=
  match read_digits s with
  | (Decimal.Nil, _) => NaN
  | (d, rest) => read_decimals (100 * N.of_uint d) rest
  end.

(** [Number::toString]: the shortest numeral, so trailing zero
    decimals and a bare point are dropped. *)
Definition number_to_string (x : Number) : string :=
  match x with
  | NaN => "NaN"
  | Hundredths n =>
      let f := (n mod 100)%N in
      string_of_N (n / 100)
      ++ (if (f =? 0)%N then ""
          else "." ++ String (digit_char (f / 10))
                        (if (f mod 10 =? 0)%N then ""
                         else String (digit_char (f mod 10)) ""))
  end.

(** [Math.floor(Math.log(x) / Math.log(1024))] for an integer [x >= 1]:
    the floor of the real base-1024 logarithm, that is, a tenth of the
    binary logarithm rounded down.  The double-precision quotient has the
    same floor as long as [x] is not within a few units in the last place
    of a power of 1024 from below, which no integer below 2^40 is, nor any
    from 2^40 to below 2^49; just below 2^50 the two differ, and no
    statement of this file goes that far. *)
Definition floor_log_1024 (x : N) : N := (N.log2 x / 10)%N.

Definition dquote : string := String (ascii_of_nat 34) EmptyString.

End JS.

(** ** Data model *)

(** The browser's [File], as far as the component reads it. *)
Module File.
Record t := mk { name : string; size : N }.
End File.

(** An entry of a storage listing.  [updated_at] is the instant the
    backend's time stamp denotes, when there is one. *)
Module Entry.
Record t := mk {
  id : option string;
  name : string;
  metadata_size : option N;
  updated_at : option Z
}.
End Entry.

Record FileItem := mkFileItem {
  id : string;
  name : string;
  size : N;
  type : string;
  uploadedAt : Z;
  uploadedBy : string;
  folder : option string;
  tags : list string;
  url : option string;
  path : option string
}.

Inductive Variant := Default | Destructive.

Record Toast := mkToast {
  title : string;
  description : string;
  variant : Variant
}.

(** Requests sent to the storage client (bucket [project-files]). *)
Inductive StorageCall :=
| ListCall (prefix : string) (limit offset : N)
| UploadCall (key : string) (file : File.t)
| RemoveCall (keys : list string).

(** What the surroundings supply: the session's e-mail address, if any,
    and the public URL the storage client computes for a key. *)
Record Env := mkEnv {
  user_email : option string;
  getPublicUrl : string -> string
}.

(** The component's state, and the effects performed so far in the order
    they happened. *)
Record State := mkState {
  files : list FileItem;
  searchQuery : string;
  selectedFolder : string;
  showUploadArea : bool;
  isUploading : bool;
  uploadProgress : Q;
  showFolderDialog : bool;
  newFolderName : string;
  folders : list string;
  toasts : list Toast;
  storageCalls : list StorageCall;
  progressReports : list Q
}.

Definition seed_folders : list string :=
  ["Documents"; "Design"; "Images"; "Videos"; "Code"; "Audio"].

Definition initial : State :=
  mkState [] "" "all" false false 0%Q false "" seed_folders [] [] [].

Definition setFiles (v : list FileItem) (s : State) : State :=
  mkState v (searchQuery s) (selectedFolder s) (showUploadArea s) (isUploading s)
    (uploadProgress s) (showFolderDialog s) (newFolderName s) (folders s)
    (toasts s) (storageCalls s) (progressReports s).

Definition setShowUploadArea (v : bool) (s : State) : State :=
  mkState (files s) (searchQuery s) (selectedFolder s) v (isUploading s)
    (uploadProgress s) (showFolderDialog s) (newFolderName s) (folders s)
    (toasts s) (storageCalls s) (progressReports s).

Definition setIsUploading (v : bool) (s : State) : State :=
  mkState (files s) (searchQuery s) (selectedFolder s) (showUploadArea s) v
    (uploadProgress s) (showFolderDialog s) (newFolderName s) (folders s)
    (toasts s) (storageCalls s) (progressReports s).

(** [setUploadProgress] is the progress report: the value lands in the
    state and in the log of reports. *)
Definition setUploadProgress (v : Q) (s : State) : State :=
  mkState (files s) (searchQuery s) (selectedFolder s) (showUploadArea s) (isUploading s)
    v (showFolderDialog s) (newFolderName s) (folders s)
    (toasts s) (storageCalls s) (progressReports s ++ [v])%list.

Definition setShowFolderDialog (v : bool) (s : State) : State :=
  mkState (files s) (searchQuery s) (selectedFolder s) (showUploadArea s) (isUploading s)
    (uploadProgress s) v (newFolderName s) (folders s)
    (toasts s) (storageCalls s) (progressReports s).

Definition setNewFolderName (v : string) (s : State) : State :=
  mkState (files s) (searchQuery s) (selectedFolder s) (showUploadArea s) (isUploading s)
    (uploadProgress s) (showFolderDialog s) v (folders s)
    (toasts s) (storageCalls s) (progressReports s).

(** [folders.push(x)] *)
Definition folders_push (x : string) (s : State) : State :=
  mkState (files s) (searchQuery s) (selectedFolder s) (showUploadArea s) (isUploading s)
    (uploadProgress s) (showFolderDialog s) (newFolderName s) (folders s ++ [x])%list
    (toasts s) (storageCalls s) (progressReports s).

Definition toast (t : Toast) (s : State) : State :=
  mkState (files s) (searchQuery s) (selectedFolder s) (showUploadArea s) (isUploading s)
    (uploadProgress s) (showFolderDialog s) (newFolderName s) (folders s)
    (toasts s ++ [t])%list (storageCalls s) (progressReports s).

Definition storage (c : StorageCall) (s : State) : State :=
  mkState (files s) (searchQuery s) (selectedFolder s) (showUploadArea s) (isUploading s)
    (uploadProgress s) (showFolderDialog s) (newFolderName s) (folders s)
    (toasts s) (storageCalls s ++ [c])%list (progressReports s).

(** ** Pure helpers *)

Definition getFileType (filename : string) : string :=
  let ext := option_map JS.toLowerCase (JS.pop (JS.split "." filename)) in
  if JS.array_includes ["pdf"; "doc"; "docx"] (JS.or_else ext "") then "document"
  else if JS.array_includes ["jpg"; "jpeg"; "png"; "gif"; "svg"] (JS.or_else ext "") then "image"
  else if JS.array_includes ["mp4"; "avi"; "mov"; "wmv"] (JS.or_else ext "") then "video"
  else if JS.array_includes ["mp3"; "wav"; "flac"] (JS.or_else ext "") then "audio"
  else if JS.array_includes ["zip"; "rar"; "7z"] (JS.or_else ext "") then "archive"
  else if JS.array_includes ["js"; "ts"; "jsx"; "tsx"; "html"; "css"] (JS.or_else ext "") then "code"
  else "other".

Definition getFolderFromPath (path : string) : string :=
  let parts := JS.split "/" path in
  if (1 <? List.length parts)%nat then hd "" parts else "Root".

Definition getFileUrl (env : Env) (path : string) : string :=
  getPublicUrl env path.

Definition sizes : list string := ["Bytes"; "KB"; "MB"; "GB"].

(** [sizes[i]] inside a string concatenation: an index past the end
    reads [undefined], which prints as such. *)
Definition sizes_at (i : N) : string :=
  match nth_error sizes (N.to_nat i) with
  | Some u => u
  | None => "undefined"
  end.

Definition formatFileSize (bytes : N) : string :=
  if (bytes =? 0)%N then "0 Bytes"
  else
    let k := 1024%N in
    let i := JS.floor_log_1024 bytes in
    JS.number_to_string (JS.parseFloat (JS.toFixed2 bytes (k ^ i)))
    ++ " " ++ sizes_at i.

(** The filter of [filteredFiles], on one record. *)
Definition matchesSearch (searchQuery : string) (file : FileItem) : bool :=
  JS.includes (JS.toLowerCase (name file)) (JS.toLowerCase searchQuery)
  || existsb (fun tag => JS.includes (JS.toLowerCase tag) (JS.toLowerCase searchQuery))
       (tags file).

Definition matchesFolder (selectedFolder : string) (file : FileItem) : bool :=
  (selectedFolder =? "all")
  || match folder file with
     | Some f => f =? selectedFolder
     | None => false
     end.

Definition filteredFiles (files : list FileItem) (searchQuery selectedFolder : string)
  : list FileItem :=
  filter (fun file => matchesSearch searchQuery file && matchesFolder selectedFolder file)
    files.

(** ** Event handlers *)

Inductive ListResponse :=
| ListData (data : list Entry.t)
| ListError
| ListThrows.

(** [now] is the reading of the clock the mapping falls back to. *)
Definition loadFiles (env : Env) (now : Z) (resp : ListResponse) (st : State) : State :=
  let st := storage (ListCall "" 100 0) st in
  match resp with
  | ListData data =>
      let fileItems :=
        map (fun file =>
               {| id := JS.or_else (Entry.id file) (Entry.name file);
                  name := Entry.name file;
                  size := match Entry.metadata_size file with Some n => n | None => 0%N end;
                  type := getFileType (Entry.name file);
                  uploadedAt := match Entry.updated_at file with
                                | Some t => t
                                | None => now
                                end;
                  uploadedBy := JS.or_else (user_email env) "Unknown";
                  folder := Some (getFolderFromPath (Entry.name file));
                  tags := [];
                  path := Some (Entry.name file);
                  url := Some (getFileUrl env (Entry.name file)) |})
            data in
      setFiles fileItems st
  | ListError => st
  | ListThrows => st
  end.

(** The storage client's answer to one [upload]: the stored path, an
    error with its message, or an exception. *)
Inductive UploadResponse :=
| UploadData (path : string)
| UploadError (message : string)
| UploadThrows.

(** One selected file, with what its upload will be answered and the
    clock reading at the time its record is built. *)
Record Selected := mkSelected {
  file : File.t;
  response : UploadResponse;
  clock : Z
}.

(** [((i + 1) / total) * 100], taken exactly.  Line 167 computes it in
    double precision, which gives the same number whenever the quotient
    and the product are representable, as they are for a half and for
    [i + 1 = total]; elsewhere the two roundings leave the double within
    a few units in the last place of the value given here. *)
Definition progress (i total : nat) : Q :=
  ((inject_Z (Z.of_nat (i + 1)) / inject_Z (Z.of_nat total)) * 100)%Q.

(** The body of the [for] loop from index [i] on. [total] is
    [selectedFiles.length]; the result is the state and
    [uploadedFiles], or nothing when an exception left the loop. *)
Fixpoint upload_loop (env : Env) (total i : nat) (rest : list Selected)
    (uploadedFiles : list FileItem) (st : State) : State * option (list FileItem) :=
  match rest with
  | [] => (st, Some uploadedFiles)
  | x :: rest' =>
      let fileName :=
        (if selectedFolder st =? "all" then "" else selectedFolder st ++ "/")
        ++ File.name (file x) in
      let st := storage (UploadCall fileName (file x)) st in
      match response x with
      | UploadThrows => (st, None)
      | UploadError message =>
          let st :=
            toast {| title := "Upload Failed";
                     description :=
                       "Failed to upload " ++ File.name (file x) ++ ": " ++ message;
                     variant := Destructive |} st in
          upload_loop env total (S i) rest' uploadedFiles st
      | UploadData data_path =>
          let fileItem :=
            {| id := data_path;
               name := File.name (file x);
               size := File.size (file x);
               type := getFileType (File.name (file x));
               uploadedAt := clock x;
               uploadedBy := JS.or_else (user_email env) "Unknown";
               folder := Some (if selectedFolder st =? "all" then "Root"
                               else selectedFolder st);
               tags := [];
               path := Some data_path;
               url := Some (getFileUrl env data_path) |} in
          let st := setUploadProgress (progress i total) st in
          upload_loop env total (S i) rest' (uploadedFiles ++ [fileItem])%list st
      end
  end.

(** [selectedFiles] is [event.target.files]: [None] for [null]. *)
Definition handleFileUpload (env : Env) (selectedFiles : option (list Selected))
    (st : State) : State :=
  match selectedFiles with
  | None => st
  | Some [] => st
  | Some batch =>
      let st := setIsUploading true st in
      let st := setUploadProgress 0 st in
      let st :=
        match upload_loop env (List.length batch) 0 batch [] st with
        | (st, Some uploadedFiles) =>
            let st := setFiles (uploadedFiles ++ files st)%list st in
            let st :=
              toast {| title := "Upload Successful";
                       description :=
                         "Successfully uploaded "
                         ++ JS.string_of_nat (List.length uploadedFiles) ++ " file(s)";
                       variant := Default |} st in
            setShowUploadArea false st
        | (st, None) =>
            toast {| title := "Upload Failed";
                     description := "An error occurred during upload";
                     variant := Destructive |} st
        end in
      let st := setIsUploading false st in
      setUploadProgress 0 st
  end.

Inductive RemoveResponse :=
| RemoveOk
| RemoveError
| RemoveThrows.

Definition handleFileDelete (fileId : string) (resp : RemoveResponse) (st : State)
  : State :=
  match find (fun f => id f =? fileId) (files st) with
  | None => st
  | Some file =>
      let st := storage (RemoveCall [JS.or_else (path file) (name file)]) st in
      match resp with
      | RemoveThrows =>
          toast {| title := "Delete Failed";
                   description := "An error occurred while deleting the file";
                   variant := Destructive |} st
      | RemoveError =>
          toast {| title := "Delete Failed";
                   description := "Failed to delete " ++ name file;
                   variant := Destructive |} st
      | RemoveOk =>
          let st := setFiles (filter (fun f => negb (id f =? fileId)) (files st)) st in
          toast {| title := "File Deleted";
                   description := name file ++ " has been deleted";
                   variant := Default |} st
      end
  end.

Definition handleFolderCreate (st : State) : State :=
  if negb (JS.truthy (JS.trim (newFolderName st))) then
    toast {| title := "Error";
             description := "Please enter a folder name";
             variant := Destructive |} st
  else if JS.array_includes (folders st) (newFolderName st) then
    toast {| title := "Error";
             description := "Folder already exists";
             variant := Destructive |} st
  else
    let name := newFolderName st in
    let st := folders_push name st in
    let st :=
      toast {| title := "Folder Created";
               description :=
                 "Folder " ++ JS.dquote ++ name ++ JS.dquote ++ " has been created";
               variant := Default |} st in
    let st := setNewFolderName "" st in
    setShowFolderDialog false st.

(** ** The component as a transition system *)

Inductive Action :=
| Load (now : Z) (resp : ListResponse)
| SelectFolder (value : string)
| Search (query : string)
| TypeFolderName (value : string)
| UploadFiles (selectedFiles : option (list Selected))
| DeleteFile (fileId : string) (resp : RemoveResponse)
| CreateFolder.

Definition setSelectedFolder (v : string) (s : State) : State :=
  mkState (files s) (searchQuery s) v (showUploadArea s) (isUploading s)
    (uploadProgress s) (showFolderDialog s) (newFolderName s) (folders s)
    (toasts s) (storageCalls s) (progressReports s).

Definition setSearchQuery (v : string) (s : State) : State :=
  mkState (files s) v (selectedFolder s) (showUploadArea s) (isUploading s)
    (uploadProgress s) (showFolderDialog s) (newFolderName s) (folders s)
    (toasts s) (storageCalls s) (progressReports s).

(** After a handler has run React renders the component again, and the
    body of the component rebuilds the [folders] array from its literal:
    a pushed name lives until the end of the handler that pushed it. *)
Definition render (s : State) : State :=
  mkState (files s) (searchQuery s) (selectedFolder s) (showUploadArea s) (isUploading s)
    (uploadProgress s) (showFolderDialog s) (newFolderName s) seed_folders
    (toasts s) (storageCalls s) (progressReports s).

Definition handle (env : Env) (a : Action) (st : State) : State :=
  match a with
  | Load now resp => loadFiles env now resp st
  | SelectFolder v => setSelectedFolder v st
  | Search q => setSearchQuery q st
  | TypeFolderName v => setNewFolderName v st
  | UploadFiles fs => handleFileUpload env fs st
  | DeleteFile i resp => handleFileDelete i resp st
  | CreateFolder => handleFolderCreate st
  end.

Definition step (env : Env) (a : Action) (st : State) : State :=
  render (handle env a st).

Definition run (env : Env) (acts : list Action) (st : State) : State :=
  fold_left (fun s a => step env a s) acts st.

(** ** Download, preview and icons *)

(** What becomes of the temporary link: the DOM calls go through, or one
    of them throws, before or after the click has started the
    retrieval. *)
Inductive DomResponse :=
| DomOk
| DomThrows (clicked : bool).

(** The retrieval a click on the temporary link starts: the address and
    the suggested file name. *)
Record Download := mkDownload {
  href : string;
  download : string
}.

Definition handleFileDownload (fileId : string) (dom : DomResponse) (st : State)
  : State * option Download :=
  match find (fun f => id f =? fileId) (files st) with
  | None => (st, None)
  | Some file =>
      match url file with
      | None => (st, None)
      | Some file_url =>
          if negb (JS.truthy file_url) then (st, None)
          else
            let link := mkDownload file_url (name file) in
            match dom with
            | DomOk =>
                (toast {| title := "Download Started";
                          description := "Downloading " ++ name file;
                          variant := Default |} st,
                 Some link)
            | DomThrows clicked =>
                (toast {| title := "Download Failed";
                          description := "An error occurred while downloading the file";
                          variant := Destructive |} st,
                 if clicked then Some link else None)
            end
      end
  end.

Definition canPreview (type : string) : bool :=
  JS.array_includes ["image"; "document"; "video"; "audio"] type.

(** The embedded viewers of the preview modal. *)
Inductive Viewer :=
| Img (src alt : string)
| Iframe (src title : string)
| VideoPlayer (src : string)
| AudioPlayer (src : string).

(** [viewingFile.type === t && viewingFile.url && <viewer/>]: the viewer
    is rendered when the type is [t] and the URL is a non-empty string. *)
Definition rendered_when (t : string) (viewingFile : FileItem) (viewer : string -> Viewer)
  : list Viewer :=
  if type viewingFile =? t then
    match url viewingFile with
    | Some u => if JS.truthy u then [viewer u] else []
    | None => []
    end
  else [].

(** The viewers the preview modal renders for [viewingFile], in the
    order of the four conditional blocks. *)
Definition previewViewers (viewingFile : FileItem) : list Viewer :=
  (rendered_when "image" viewingFile (fun u => Img u (name viewingFile))
   ++ rendered_when "document" viewingFile (fun u => Iframe u (name viewingFile))
   ++ rendered_when "video" viewingFile VideoPlayer
   ++ rendered_when "audio" viewingFile AudioPlayer)%list.

Module Icon.
Inductive t := FileText | Image | Video | Music | Archive | File.
End Icon.

(** An icon element: the component and its class attribute. *)
Record IconElement := mkIcon {
  icon : Icon.t;
  className : string
}.

Definition getFileIcon (theme : string) (type : string) : IconElement :=
  let iconClass := "h-8 w-8" in
  let isDark := theme =? "dark" in
  if type =? "document" then
    mkIcon Icon.FileText (iconClass ++ " " ++ (if isDark then "text-blue-400" else "text-blue-600"))
  else if type =? "image" then
    mkIcon Icon.Image (iconClass ++ " " ++ (if isDark then "text-green-400" else "text-green-600"))
  else if type =? "video" then
    mkIcon Icon.Video (iconClass ++ " " ++ (if isDark then "text-purple-400" else "text-purple-600"))
  else if type =? "audio" then
    mkIcon Icon.Music (iconClass ++ " " ++ (if isDark then "text-pink-400" else "text-pink-600"))
  else if type =? "archive" then
    mkIcon Icon.Archive (iconClass ++ " " ++ (if isDark then "text-orange-400" else "text-orange-600"))
  else if type =? "code" then
    mkIcon Icon.File (iconClass ++ " " ++ (if isDark then "text-yellow-400" else "text-yellow-600"))
  else
    mkIcon Icon.File (iconClass ++ " " ++ (if isDark then "text-gray-400" else "text-gray-600")).

(** The counters of the header: [files.filter(f => f.type === t).length]. *)
Definition countOfType (t : string) (files : list FileItem) : nat :=
  List.length (filter (fun f => type f =? t) files).

(** ** Vocabulary of the specification *)

(** [t] occurs in [s]. *)
Definition substring_of (t s : string) : Prop :=
  exists pre post, s = pre ++ t ++ post.

(** [q] occurs in [s] when case is ignored. *)
Definition contains_ci (s q : string) : Prop :=
  substring_of (JS.toLowerCase q) (JS.toLowerCase s).

(** The record passes the search box and the folder selector. *)
Definition passes (q sel : string) (r : FileItem) : Prop :=
  (contains_ci (name r) q \/ exists t, In t (tags r) /\ contains_ci t q)
  /\ (sel = "all" \/ folder r = Some sel).

(** The last dot-separated piece of the name, in lower case: what
    [getFileType] looks up. *)
Definition extension (filename : string) : string :=
  JS.or_else (option_map JS.toLowerCase (JS.pop (JS.split "." filename))) "".

Definition known_extensions : list string :=
  ["pdf"; "doc"; "docx"; "jpg"; "jpeg"; "png"; "gif"; "svg"; "mp4"; "avi"; "mov"; "wmv";
   "mp3"; "wav"; "flac"; "zip"; "rar"; "7z"; "js"; "ts"; "jsx"; "tsx"; "html"; "css"].

Definition categories : list string :=
  ["document"; "image"; "video"; "audio"; "archive"; "code"; "other"].

(** No code unit of [s] is [c]. *)
Definition free_of (c : ascii) (s : string) : Prop :=
  ~ In c (list_ascii_of_string s).

(** Every code unit of [s] is white space; the empty string is blank. *)
Definition blank (s : string) : Prop :=
  Forall (fun c => JS.is_white c = true) (list_ascii_of_string s).

(** The outcome of one selected file. *)
Definition succeeded (x : Selected) : bool :=
  match response x with UploadData _ => true | _ => false end.

Definition failed (x : Selected) : bool :=
  match response x with UploadError _ => true | _ => false end.

Definition throws (x : Selected) : Prop := response x = UploadThrows.

(** The toast owed to a file whose upload was answered with an error. *)
Definition failure_toast (x : Selected) : Toast :=
  mkToast "Upload Failed"
    ("Failed to upload " ++ File.name (file x) ++ ": "
     ++ match response x with UploadError m => m | _ => "" end)
    Destructive.

(** The toast that closes a batch with [m] stored files. *)
Definition summary_toast (m : nat) : Toast :=
  mkToast "Upload Successful"
    ("Successfully uploaded " ++ JS.string_of_nat m ++ " file(s)") Default.

(** [r] is the record of the stored file [x], uploaded under the folder
    selection [sel]. *)
Definition record_for (env : Env) (sel : string) (x : Selected) (r : FileItem) : Prop :=
  exists p,
    response x = UploadData p
    /\ id r = p /\ path r = Some p /\ url r = Some (getPublicUrl env p)
    /\ name r = File.name (file x) /\ size r = File.size (file x)
    /\ type r = getFileType (File.name (file x))
    /\ uploadedAt r = clock x
    /\ tags r = []
    /\ folder r = Some (if sel =? "all" then "Root" else sel).

(** The positions, counted from [i], of the stored files. *)
Fixpoint stored_positions (i : nat) (batch : list Selected) : list nat :=
  match batch with
  | [] => []
  | x :: rest =>
      if succeeded x then i :: stored_positions (S i) rest
      else stored_positions (S i) rest
  end.

(** The destination key of a file under a folder selection. *)
Definition destination (sel filename : string) : string :=
  (if sel =? "all" then "" else sel ++ "/") ++ filename.

(** The folder of [r] is the one its path gives. *)
Definition folder_derived (r : FileItem) : Prop :=
  exists p, path r = Some p /\ folder r = Some (getFolderFromPath p).

(** What the component is given by its surroundings.  The folder
    selector offers [all] and the entries of the [folders] array of the
    current render; the storage client answers a stored upload with the
    key it was asked to store (section 6 of the specification:
    [upload(key, blob) -> key|error]); and the name of a browser [File] is
    a base name, without a slash. *)
Definition admissible_file (sel : string) (x : Selected) : Prop :=
  (forall p, response x = UploadData p -> p = destination sel (File.name (file x)))
  /\ free_of "/" (File.name (file x)).

Definition admissible_action (st : State) (a : Action) : Prop :=
  match a with
  | SelectFolder v => In v ("all" :: folders st)
  | UploadFiles (Some batch) => Forall (admissible_file (selectedFolder st)) batch
  | _ => True
  end.

Fixpoint admissible (env : Env) (acts : list Action) (st : State) : Prop :=
  match acts with
  | [] => True
  | a :: rest => admissible_action st a /\ admissible env rest (step env a st)
  end.

(** The number at the head of a formatted size, read back in
    hundredths, lies in [[lo, hi)]. *)
Definition shown_within (s : string) (lo hi : N) : Prop :=
  exists n, JS.parseFloat s = JS.Hundredths n /\ (lo <= n < hi)%N.

(** [s] does not start with a decimal digit. *)
Definition no_digit_ahead (s : string) : Prop :=
  match s with
  | EmptyString => True
  | String c _ => JS.digit_of_char c = None
  end.

(** What the reachable states have in common. *)
Definition folder_invariant (st : State) : Prop :=
  Forall folder_derived (files st)
  /\ folders st = seed_folders
  /\ In (selectedFolder st) ("all" :: seed_folders).

(** The files of a batch whose upload is attempted: all of them up to
    and including the first whose upload throws. *)
Fixpoint attempted (batch : list Selected) : list Selected :=
  match batch with
  | [] => []
  | x :: rest =>
      match response x with
      | UploadThrows => [x]
      | _ => x :: attempted rest
      end
  end.

(** The request sent for a selected file under a folder selection. *)
Definition upload_request (sel : string) (x : Selected) : StorageCall :=
  UploadCall (destination sel (File.name (file x))) (file x).

(** What every record made by the loader or by an upload looks like. *)
Definition well_made (env : Env) (r : FileItem) : Prop :=
  type r = getFileType (name r)
  /\ tags r = []
  /\ exists p, path r = Some p /\ url r = Some (getPublicUrl env p).

(** [c] is not changed by, and does not come out of, lower-casing. *)
Definition caseless (c : ascii) : Prop :=
  forall a, JS.lower_char a = c <-> a = c.

(** The toast that confirms the creation of a folder. *)
Definition folder_created_toast (name : string) : Toast :=
  mkToast "Folder Created"
    ("Folder " ++ JS.dquote ++ name ++ JS.dquote ++ " has been created") Default.

(** ** Sample data *)

Definition sample_env : Env :=
  mkEnv (Some "manager@example.org") (fun p => "https://storage.example.org/" ++ p).

Definition stored_file (name : string) (size : N) (path : string) : Selected :=
  mkSelected (File.mk name size) (UploadData path) 1700000000.

Definition rejected_file (name : string) (size : N) (message : string) : Selected :=
  mkSelected (File.mk name size) (UploadError message) 1700000000.

Definition sample_record : FileItem :=
  mkFileItem "Documents/report.pdf" "report.pdf" 2048 "document" 1700000000
    "manager@example.org" (Some "Documents") []
    (Some "https://storage.example.org/Documents/report.pdf")
    (Some "Documents/report.pdf").

Definition sample_state : State := setFiles [sample_record] initial.

Definition sample_batch : list Selected :=
  [stored_file "report.pdf" 2048 "Documents/report.pdf";
   rejected_file "notes.txt" 12 "The resource already exists"].

Definition sample_session : list Action :=
  [Load 1700000000 (ListData [Entry.mk None "readme.md" (Some 120%N) None]);
   SelectFolder "Documents";
   UploadFiles (Some [stored_file "report.pdf" 2048 "Documents/report.pdf"]);
   TypeFolderName "Reports";
   CreateFolder;
   DeleteFile "readme.md" RemoveOk].

(** ** Classification *)

Lemma getFileType_extension (filename : string) :
  getFileType filename =
    if JS.array_includes ["pdf"; "doc"; "docx"] (extension filename) then "document"
    else if JS.array_includes ["jpg"; "jpeg"; "png"; "gif"; "svg"] (extension filename) then "image"
    else if JS.array_includes ["mp4"; "avi"; "mov"; "wmv"] (extension filename) then "video"
    else if JS.array_includes ["mp3"; "wav"; "flac"] (extension filename) then "audio"
    else if JS.array_includes ["zip"; "rar"; "7z"] (extension filename) then "archive"
    else if JS.array_includes ["js"; "ts"; "jsx"; "tsx"; "html"; "css"] (extension filename) then "code"
    else "other".
Proof. reflexivity. Qed.

Lemma array_includes_In (l : list string) (x : string) :
  JS.array_includes l x = true <-> In x l.
Proof.
  unfold JS.array_includes. rewrite existsb_exists. split.
  - intros [y [Hy He]]. apply String.eqb_eq in He. now subst.
  - intros H. exists x. split; [assumption | apply String.eqb_refl].
Qed.

Lemma array_includes_false (l : list string) (x : string) :
  ~ In x l -> JS.array_includes l x = false.
Proof.
  intros H. destruct (JS.array_includes l x) eqn:E; [|reflexivity].
  apply array_includes_In in E. contradiction.
Qed.

(** The classification only looks at the lower-cased extension. *)
Lemma getFileType_depends_on_extension (f g : string) :
  extension f = extension g -> getFileType f = getFileType g.
Proof. intros H. rewrite !getFileType_extension, H. reflexivity. Qed.

(** It answers one of the seven categories. *)
Lemma getFileType_category (filename : string) :
  In (getFileType filename) categories.
Proof.
  rewrite getFileType_extension. unfold categories.
  repeat match goal with
         | |- context [if ?b then _ else _] => destruct b
         end; simpl; tauto.
Qed.

(** An extension outside the six tables is classified [other]. *)
Lemma getFileType_unknown (filename : string) :
  ~ In (extension filename) known_extensions -> getFileType filename = "other".
Proof.
  intros H. rewrite getFileType_extension.
  rewrite !array_includes_false; [reflexivity | | | | | |];
    intros Hin; apply H; unfold known_extensions; simpl in *; tauto.
Qed.

(** A name without any dot is its own last piece. *)
Lemma split_free (c : ascii) (s : string) :
  free_of c s -> JS.split c s = [s].
Proof.
  unfold free_of. induction s as [|a s IH]; simpl; intros H; [reflexivity|].
  destruct (Ascii.eqb a c) eqn:E.
  - apply Ascii.eqb_eq in E. exfalso. apply H. now left.
  - rewrite IH; [reflexivity|]. intros Hin. apply H. now right.
Qed.

(** C2: the classification is a function of the lower-cased extension with
    values in the seven categories, but a name that has no extension at
    all is not always [other]: the file called [pdf], which contains no
    dot, is classified [document], because the last dot-separated piece
    of such a name is the whole name. *)
Theorem getFileType_bare_name :
  free_of "." "pdf" /\ getFileType "pdf" = "document" /\ getFileType "pdf" <> "other".
Proof.
  split; [|split].
  - unfold free_of. simpl. intros [H|[H|[H|[]]]]; discriminate H.
  - reflexivity.
  - discriminate.
Qed.

(** ** Search and filter *)

Lemma prefix_append (t s : string) :
  String.prefix t s = true <-> exists post, s = t ++ post.
Proof.
  revert s. induction t as [|a t IH]; intros s; simpl.
  - split; [intros _; now exists s | intros _; now destruct s].
  - destruct s as [|b s]; simpl.
    + split; [discriminate | intros [post H]; discriminate H].
    + destruct (ascii_dec a b) as [->|Hne].
      * rewrite IH. split; intros [post H]; exists post.
        -- now rewrite H.
        -- now injection H.
      * split; [discriminate|]. intros [post H]. injection H as H1 _.
        now elim Hne.
Qed.

Lemma includes_nil (t : string) :
  JS.includes "" t = String.prefix t "" || false.
Proof. reflexivity. Qed.

Lemma includes_cons (a : ascii) (s t : string) :
  JS.includes (String a s) t = String.prefix t (String a s) || JS.includes s t.
Proof. reflexivity. Qed.

Lemma includes_substring (s t : string) :
  JS.includes s t = true <-> substring_of t s.
Proof.
  unfold substring_of. induction s as [|a s IH].
  - rewrite includes_nil, orb_false_r, prefix_append. split.
    + intros [post H]. now exists "", post.
    + intros [pre [post H]]. destruct pre; [now exists post|discriminate H].
  - rewrite includes_cons, orb_true_iff, prefix_append, IH. split.
    + intros [[post H]|[pre [post H]]].
      * now exists "", post.
      * exists (String a pre), post. simpl. now rewrite H.
    + intros [pre [post H]]. destruct pre as [|b pre].
      * left. now exists post.
      * right. injection H as _ H. now exists pre, post.
Qed.

Lemma includes_empty (s : string) : JS.includes s "" = true.
Proof. apply includes_substring. now exists "", s. Qed.

Lemma matchesSearch_spec (q : string) (r : FileItem) :
  matchesSearch q r = true <->
  contains_ci (name r) q \/ exists t, In t (tags r) /\ contains_ci t q.
Proof.
  unfold matchesSearch, contains_ci.
  rewrite orb_true_iff, includes_substring, existsb_exists.
  split; (intros [H|[t [Ht H]]]; [now left | right; exists t; split; [assumption|]]).
  - now apply includes_substring.
  - now apply includes_substring.
Qed.

Lemma matchesFolder_spec (sel : string) (r : FileItem) :
  matchesFolder sel r = true <-> sel = "all" \/ folder r = Some sel.
Proof.
  unfold matchesFolder. rewrite orb_true_iff, String.eqb_eq.
  destruct (folder r) as [f|].
  - rewrite String.eqb_eq. split; (intros [H|H]; [now left | right]).
    + now subst.
    + now injection H.
  - split; (intros [H|H]; [now left | discriminate H]).
Qed.

Lemma accepts_passes (q sel : string) (r : FileItem) :
  matchesSearch q r && matchesFolder sel r = true <-> passes q sel r.
Proof.
  unfold passes. now rewrite andb_true_iff, matchesSearch_spec, matchesFolder_spec.
Qed.

Lemma matchesSearch_empty (r : FileItem) : matchesSearch "" r = true.
Proof. unfold matchesSearch. simpl. now rewrite includes_empty. Qed.



(** ** Delete *)

Lemma find_none_iff (fileId : string) (l : list FileItem) :
  find (fun f => id f =? fileId) l = None <-> forall f, In f l -> id f <> fileId.
Proof.
  split.
  - intros H f Hin He. apply (find_none _ _ H) in Hin.
    apply String.eqb_neq in Hin. contradiction.
  - induction l as [|a l IH]; intros H; simpl; [reflexivity|].
    destruct (id a =? fileId) eqn:E.
    + apply String.eqb_eq in E. exfalso. apply (H a); [now left | assumption].
    + apply IH. intros f Hin. apply H. now right.
Qed.

(** C5: deleting an identity that no record of the listing carries leaves
    the whole state as it was: the listing, the toasts shown and the
    requests sent to the storage client. *)
Theorem handleFileDelete_absent (fileId : string) (resp : RemoveResponse) (st : State) :
  (forall f, In f (files st) -> id f <> fileId) ->
  handleFileDelete fileId resp st = st
  /\ files (handleFileDelete fileId resp st) = files st
  /\ toasts (handleFileDelete fileId resp st) = toasts st
  /\ storageCalls (handleFileDelete fileId resp st) = storageCalls st.
Proof.
  intros H. apply find_none_iff in H.
  assert (E : handleFileDelete fileId resp st = st).
  { unfold handleFileDelete. now rewrite H. }
  rewrite E. auto.
Qed.

Lemma find_first (fileId : string) (l : list FileItem) :
  (exists f, In f l /\ id f = fileId) ->
  exists file, find (fun f => id f =? fileId) l = Some file
               /\ In file l /\ id file = fileId.
Proof.
  intros [f [Hin He]].
  destruct (find (fun f => id f =? fileId) l) as [file|] eqn:E.
  - exists file. apply find_some in E. destruct E as [H1 H2].
    apply String.eqb_eq in H2. auto.
  - exfalso. apply (proj1 (find_none_iff fileId l) E f Hin He).
Qed.

Lemma filter_other_ids (fileId : string) (l : list FileItem) :
  (forall f, In f l -> id f <> fileId) ->
  filter (fun f => negb (id f =? fileId)) l = l.
Proof.
  induction l as [|a l IH]; intros H; simpl; [reflexivity|].
  assert (E : (id a =? fileId) = false).
  { apply String.eqb_neq. apply H. now left. }
  rewrite E. simpl. f_equal. apply IH. intros f Hin. apply H. now right.
Qed.

(** With distinct identities, filtering an identity out drops one record. *)
Lemma filter_unique_id (fileId : string) (l : list FileItem) :
  NoDup (map id l) -> (exists f, In f l /\ id f = fileId) ->
  S (List.length (filter (fun f => negb (id f =? fileId)) l)) = List.length l.
Proof.
  induction l as [|a l IH]; simpl; intros Hnd [f [Hin He]]; [contradiction|].
  inversion Hnd as [|x xs Hnotin Hnd']; subst x xs.
  destruct (id a =? fileId) eqn:E; simpl.
  - apply String.eqb_eq in E. f_equal. f_equal. apply filter_other_ids.
    intros g Hg Heq. apply Hnotin. rewrite E, <- Heq. now apply in_map.
  - f_equal. apply IH; [assumption|]. exists f. split; [|assumption].
    destruct Hin as [Ha|Hin]; [|assumption].
    subst a. apply String.eqb_neq in E. contradiction.
Qed.

(** C6: deleting an identity that the listing holds sends one [remove]
    for the record's path, or for its name when the record has no path;
    when the storage client answers with an error or throws, a
    destructive "Delete Failed" toast is shown and the listing is as
    before; when it succeeds, the listing loses the records with that
    identity and nothing else (one record when identities are distinct)
    and a "File Deleted" toast naming the record is shown. *)
Theorem handleFileDelete_present (fileId : string) (resp : RemoveResponse) (st : State) :
  (exists f, In f (files st) /\ id f = fileId) ->
  exists file key,
    In file (files st) /\ id file = fileId
    /\ (forall p, path file = Some p -> p <> "" -> key = p)
    /\ (path file = None -> key = name file)
    /\ storageCalls (handleFileDelete fileId resp st)
       = (storageCalls st ++ [RemoveCall [key]])%list
    /\ (resp <> RemoveOk ->
        files (handleFileDelete fileId resp st) = files st
        /\ exists t, toasts (handleFileDelete fileId resp st) = (toasts st ++ [t])%list
                     /\ title t = "Delete Failed" /\ variant t = Destructive)
    /\ (resp = RemoveError ->
        toasts (handleFileDelete fileId resp st)
        = (toasts st ++ [mkToast "Delete Failed" ("Failed to delete " ++ name file)
                           Destructive])%list)
    /\ (resp = RemoveOk ->
        (forall f, In f (files (handleFileDelete fileId resp st))
                   <-> In f (files st) /\ id f <> fileId)
        /\ files (handleFileDelete fileId resp st)
           = filter (fun f => negb (id f =? fileId)) (files st)
        /\ (NoDup (map id (files st)) ->
            S (List.length (files (handleFileDelete fileId resp st)))
            = List.length (files st))
        /\ toasts (handleFileDelete fileId resp st)
           = (toasts st ++ [mkToast "File Deleted" (name file ++ " has been deleted")
                              Default])%list).
Proof.
  intros Hex. destruct (find_first fileId (files st) Hex) as [file [Hfind [Hin Hid]]].
  exists file, (JS.or_else (path file) (name file)).
  unfold handleFileDelete. rewrite Hfind.
  split; [assumption|]. split; [assumption|].
  split.
  { intros p Hp Hne. rewrite Hp. simpl. destruct p; [now elim Hne | reflexivity]. }
  split.
  { intros Hp. now rewrite Hp. }
  split.
  { destruct resp; reflexivity. }
  split.
  { intros Hne. destruct resp; [now elim Hne | |]; simpl;
      (split; [reflexivity|]); eexists; (split; [reflexivity|]); split; reflexivity. }
  split.
  { intros ->. reflexivity. }
  intros ->. simpl.
  split.
  { intros f. rewrite filter_In, negb_true_iff, String.eqb_neq. tauto. }
  split; [reflexivity|].
  split; [|reflexivity].
  intros Hnd. now apply filter_unique_id.
Qed.

(** ** Folder creation *)

Lemma blank_nil : blank "".
Proof. constructor. Qed.

Lemma blank_cons (c : ascii) (s : string) :
  blank (String c s) <-> JS.is_white c = true /\ blank s.
Proof.
  unfold blank. simpl. split.
  - intros H. inversion H; subst. auto.
  - intros [H1 H2]. now constructor.
Qed.

Lemma trimStart_empty (s : string) : JS.trimStart s = "" <-> blank s.
Proof.
  induction s as [|c s IH]; simpl.
  - split; [intros _; apply blank_nil | reflexivity].
  - rewrite blank_cons. destruct (JS.is_white c).
    + rewrite IH. tauto.
    + split; [discriminate | intros [H _]; discriminate H].
Qed.

Lemma trimStart_head (s : string) :
  JS.trimStart s = "" \/ exists c r, JS.trimStart s = String c r /\ JS.is_white c = false.
Proof.
  induction s as [|c s IH]; simpl; [now left|].
  destruct (JS.is_white c) eqn:E; [assumption|].
  right. now exists c, s.
Qed.

Lemma trimEnd_empty (s : string) : JS.trimEnd s = "" <-> blank s.
Proof.
  induction s as [|c s IH]; simpl.
  - split; [intros _; apply blank_nil | reflexivity].
  - rewrite blank_cons. destruct (JS.trimEnd s) eqn:E.
    + destruct (JS.is_white c).
      * split; [intros _; split; [reflexivity | now apply IH] | reflexivity].
      * split; [discriminate | intros [H _]; discriminate H].
    + split; [discriminate|]. intros [_ H]. apply IH in H. discriminate H.
Qed.

Lemma trim_empty (s : string) : JS.trim s = "" <-> blank s.
Proof.
  unfold JS.trim. rewrite trimEnd_empty. split.
  - intros H. apply trimStart_empty.
    destruct (trimStart_head s) as [E|[c [r [E Hc]]]]; [assumption|].
    rewrite E in H. apply blank_cons in H. destruct H as [H _].
    rewrite Hc in H. discriminate H.
  - intros H. apply trimStart_empty in H. rewrite H. apply blank_nil.
Qed.

Lemma falsy_trim (s : string) : negb (JS.truthy (JS.trim s)) = true <-> blank s.
Proof.
  rewrite <- trim_empty. destruct (JS.trim s); simpl.
  - tauto.
  - split; discriminate.
Qed.

Lemma truthy_trim (s : string) : negb (JS.truthy (JS.trim s)) = false <-> ~ blank s.
Proof.
  rewrite <- falsy_trim. destruct (negb (JS.truthy (JS.trim s))).
  - split; [discriminate | intros H; now elim H].
  - split; [discriminate | reflexivity].
Qed.

(** C8: a submitted name that is empty or made of white space only, or
    that is already in the folder array, is rejected: a destructive
    "Error" toast is shown and the folder array is left as it was; any
    other name is appended to the folder array and a "Folder Created"
    toast is shown. *)
Theorem handleFolderCreate_validation (st : State) :
  ((blank (newFolderName st) \/ In (newFolderName st) (folders st)) ->
   folders (handleFolderCreate st) = folders st
   /\ exists t, toasts (handleFolderCreate st) = (toasts st ++ [t])%list
                /\ title t = "Error" /\ variant t = Destructive)
  /\ (~ (blank (newFolderName st) \/ In (newFolderName st) (folders st)) ->
      folders (handleFolderCreate st) = (folders st ++ [newFolderName st])%list
      /\ exists t, toasts (handleFolderCreate st) = (toasts st ++ [t])%list
                   /\ title t = "Folder Created" /\ variant t = Default).
Proof.
  unfold handleFolderCreate. split.
  - intros [H|H].
    + apply falsy_trim in H. rewrite H. simpl.
      split; [reflexivity|]. eexists. repeat split.
    + destruct (negb (JS.truthy (JS.trim (newFolderName st)))).
      * simpl. split; [reflexivity|]. eexists. repeat split.
      * apply array_includes_In in H. rewrite H. simpl.
        split; [reflexivity|]. eexists. repeat split.
  - intros H.
    assert (H1 : ~ blank (newFolderName st)) by tauto.
    assert (H2 : ~ In (newFolderName st) (folders st)) by tauto.
    apply truthy_trim in H1. apply array_includes_false in H2.
    rewrite H1, H2. simpl. split; [reflexivity|]. eexists. repeat split.
Qed.

(** C10: a submitted name with a code unit that is not white space, and
    not equal to any name of the folder array, is accepted and appended as
    typed, without trimming; so [" Design"] is accepted next to
    ["Design"], and the folder array then holds two different names that
    are equal once trimmed. *)
Theorem handleFolderCreate_untrimmed :
  (forall st, ~ blank (newFolderName st) -> ~ In (newFolderName st) (folders st) ->
     folders (handleFolderCreate st) = (folders st ++ [newFolderName st])%list
     /\ toasts (handleFolderCreate st)
        = (toasts st
           ++ [mkToast "Folder Created"
                 ("Folder " ++ JS.dquote ++ newFolderName st ++ JS.dquote
                  ++ " has been created") Default])%list)
  /\ (let st := setNewFolderName " Design" initial in
      In "Design" (folders st)
      /\ In "Design" (folders (handleFolderCreate st))
      /\ In " Design" (folders (handleFolderCreate st))
      /\ " Design" <> "Design"
      /\ JS.trim " Design" = JS.trim "Design").
Proof.
  split.
  - intros st H1 H2. unfold handleFolderCreate.
    apply truthy_trim in H1. apply array_includes_false in H2.
    rewrite H1, H2. simpl. split; reflexivity.
  - simpl. repeat split; try tauto; try discriminate.
Qed.

(** ** Upload *)

(** The loop, when no upload throws: it leaves the listing alone, asks
    the storage client once per file, shows one toast per rejected file,
    reports progress once per stored file, and collects the records of
    the stored files in order. *)
Lemma upload_loop_completes (env : Env) (total : nat) (rest : list Selected) :
  forall (i : nat) (uploadedFiles : list FileItem) (st : State),
    Forall (fun x => ~ throws x) rest ->
    exists st' records,
      upload_loop env total i rest uploadedFiles st
      = (st', Some (uploadedFiles ++ records)%list)
      /\ Forall2 (record_for env (selectedFolder st)) (filter succeeded rest) records
      /\ files st' = files st
      /\ selectedFolder st' = selectedFolder st
      /\ toasts st' = (toasts st ++ map failure_toast (filter failed rest))%list
      /\ storageCalls st'
         = (storageCalls st
            ++ map (fun x => UploadCall (destination (selectedFolder st) (File.name (file x)))
                               (file x)) rest)%list
      /\ progressReports st'
         = (progressReports st
            ++ map (fun j => progress j total) (stored_positions i rest))%list.
Proof.
  induction rest as [|x rest IH]; intros i up st Hnt.
  - exists st, []. simpl. rewrite !List.app_nil_r. repeat split. constructor.
  - inversion Hnt as [|y ys Hx Hrest]; subst y ys.
    simpl. unfold succeeded, failed, failure_toast, throws in *.
    destruct (response x) as [p|m|] eqn:Er.
    + edestruct (IH (S i)) as [st' [records [E [Hrec [Hf [Hs [Ht [Hc Hp]]]]]]]];
        [exact Hrest|].
      rewrite E. eexists st', (_ :: records).
      split; [rewrite <- List.app_assoc; reflexivity|].
      split.
      { constructor; [|exact Hrec]. exists p. rewrite Er. repeat split. }
      simpl in *. rewrite Hf, Hs, Ht, Hc, Hp, <- !List.app_assoc. repeat split.
    + edestruct (IH (S i)) as [st' [records [E [Hrec [Hf [Hs [Ht [Hc Hp]]]]]]]];
        [exact Hrest|].
      rewrite E. exists st', records.
      split; [reflexivity|].
      split; [exact Hrec|].
      simpl in *. rewrite Hf, Hs, Ht, Hc, Hp, Er, <- !List.app_assoc. repeat split.
    + now elim Hx.
Qed.

Lemma outcome_count (batch : list Selected) :
  Forall (fun x => ~ throws x) batch ->
  (List.length (filter succeeded batch) + List.length (filter failed batch)
   = List.length batch)%nat.
Proof.
  induction 1 as [|x rest Hx _ IH]; simpl; [reflexivity|].
  unfold succeeded, failed, throws in *.
  destruct (response x); simpl; [lia | lia | now elim Hx].
Qed.

Lemma failure_toasts_not_summary (l : list Selected) :
  filter (fun t => title t =? "Upload Successful") (map failure_toast l) = [].
Proof. induction l as [|x l IH]; simpl; [reflexivity | exact IH]. Qed.

(** What the handler does past its guard. *)
Lemma handleFileUpload_nonempty (env : Env) (batch : list Selected) (st : State) :
  batch <> [] ->
  handleFileUpload env (Some batch) st
  = setUploadProgress 0
      (setIsUploading false
         (match upload_loop env (List.length batch) 0 batch []
                  (setUploadProgress 0 (setIsUploading true st)) with
          | (st1, Some uploadedFiles) =>
              setShowUploadArea false
                (toast (summary_toast (List.length uploadedFiles))
                   (setFiles (uploadedFiles ++ files st1)%list st1))
          | (st1, None) =>
              toast (mkToast "Upload Failed" "An error occurred during upload"
                       Destructive) st1
          end)).
Proof. intros H. destruct batch; [now elim H | reflexivity]. Qed.

(** C1: for a batch of at least one file in which every upload is
    answered (stored or rejected), with [M] the number of stored files:
    the new listing is the records of the stored files, in the order of
    the batch, followed by the old listing, so it has grown by exactly
    [M]; the toasts shown are one "Upload Failed" toast per rejected file,
    carrying the file's name, and then one "Upload Successful" toast
    carrying the count [M], also when [M] is zero; no other toast is
    titled "Upload Successful"; and the upload panel is closed. *)
Theorem handleFileUpload_batch (env : Env) (batch : list Selected) (st : State) :
  batch <> [] ->
  Forall (fun x => ~ throws x) batch ->
  let st' := handleFileUpload env (Some batch) st in
  let M := List.length (filter succeeded batch) in
  exists records shown,
    files st' = (records ++ files st)%list
    /\ Forall2 (record_for env (selectedFolder st)) (filter succeeded batch) records
    /\ List.length records = M
    /\ List.length (files st') = (List.length (files st) + M)%nat
    /\ toasts st' = (toasts st ++ shown)%list
    /\ shown = (map failure_toast (filter failed batch) ++ [summary_toast M])%list
    /\ List.length (filter (fun t => title t =? "Upload Successful") shown) = 1%nat
    /\ List.length (filter failed batch) = (List.length batch - M)%nat
    /\ showUploadArea st' = false.
Proof.
  intros Hne Hnt st' M. subst st' M.
  rewrite (handleFileUpload_nonempty env batch st Hne).
  destruct (upload_loop_completes env (List.length batch) batch 0 []
              (setUploadProgress 0 (setIsUploading true st)) Hnt)
    as [st1 [records [E [Hrec [Hf [Hs [Ht [Hc Hp]]]]]]]].
  rewrite E. simpl in Hrec, Hf, Hs, Ht |- *.
  assert (Hlen : List.length records = List.length (filter succeeded batch)).
  { symmetry. exact (Forall2_length Hrec). }
  exists records, (map failure_toast (filter failed batch)
                   ++ [summary_toast (List.length (filter succeeded batch))])%list.
  rewrite Hf, Ht, Hlen.
  split; [reflexivity|].
  split; [exact Hrec|].
  split; [reflexivity|].
  split; [rewrite List.length_app, Hlen; lia|].
  split; [unfold summary_toast; now rewrite <- List.app_assoc|].
  split; [reflexivity|].
  split; [rewrite filter_app, failure_toasts_not_summary; reflexivity|].
  split; [pose proof (outcome_count batch Hnt); lia | reflexivity].
Qed.

(** C1, as stated, fails when an upload throws instead of being
    answered.  In the batch of [a.txt], stored, and [b.txt], whose upload
    throws, one file succeeds and one fails; yet the handler leaves the
    loop for its catch block: the listing has not grown by one, the only
    toast shown is the general "Upload Failed" one, no toast carries the
    success count, and no toast names [b.txt]. *)
Lemma handleFileUpload_throw_ends_batch :
  let stored := stored_file "a.txt" 10 "a.txt" in
  let thrown := mkSelected (File.mk "b.txt" 20) UploadThrows 1700000000 in
  let st' := handleFileUpload sample_env (Some [stored; thrown]) initial in
  List.length (filter succeeded [stored; thrown]) = 1%nat
  /\ succeeded thrown = false
  /\ List.length (files st') <> (List.length (files initial) + 1)%nat
  /\ toasts st'
     = [mkToast "Upload Failed" "An error occurred during upload" Destructive]
  /\ ~ In (summary_toast 1) (toasts st')
  /\ (forall t, In t (toasts st') -> title t <> "Upload Successful")
  /\ (forall t, In t (toasts st') -> JS.includes (description t) "b.txt" = false).
Proof.
  split; [reflexivity|]. split; [reflexivity|]. split; [discriminate|].
  split; [reflexivity|]. split.
  - intros [H|[]]. discriminate H.
  - split; intros t [<-|[]]; [discriminate | reflexivity].
Qed.

(** The guard: nothing selected, nothing done. *)
Lemma handleFileUpload_nothing (env : Env) (st : State) :
  handleFileUpload env None st = st /\ handleFileUpload env (Some []) st = st.
Proof. split; reflexivity. Qed.

(** Whatever the answers, the loop leaves the listing, the selection and
    the folder array alone, and what it collects are records of files of
    the batch. *)
Lemma upload_loop_records (env : Env) (total : nat) (rest : list Selected) :
  forall (i : nat) (uploadedFiles : list FileItem) (st st' : State)
         (out : option (list FileItem)),
    upload_loop env total i rest uploadedFiles st = (st', out) ->
    files st' = files st
    /\ selectedFolder st' = selectedFolder st
    /\ folders st' = folders st
    /\ forall all, out = Some all ->
         exists records,
           all = (uploadedFiles ++ records)%list
           /\ Forall (fun r => exists x, In x rest
                                         /\ record_for env (selectedFolder st) x r)
                records.
Proof.
  induction rest as [|x rest IH]; intros i up st st' out E; simpl in E.
  - injection E as <- <-. repeat split. intros all [= <-].
    exists []. now rewrite List.app_nil_r.
  - destruct (response x) as [p|m|] eqn:Er.
    + apply IH in E. destruct E as [Hf [Hs [Hd Hout]]]. simpl in *.
      repeat split; try assumption.
      intros all Hall. destruct (Hout all Hall) as [records [-> Hrec]].
      eexists (_ :: records). split; [now rewrite <- List.app_assoc|].
      constructor.
      * exists x. split; [now left|]. exists p. rewrite Er. repeat split.
      * eapply Forall_impl; [|exact Hrec]. simpl.
        intros r [y [Hy Hr]]. exists y. split; [now right | assumption].
    + apply IH in E. destruct E as [Hf [Hs [Hd Hout]]]. simpl in *.
      repeat split; try assumption.
      intros all Hall. destruct (Hout all Hall) as [records [-> Hrec]].
      exists records. split; [reflexivity|].
      eapply Forall_impl; [|exact Hrec]. simpl.
      intros r [y [Hy Hr]]. exists y. split; [now right | assumption].
    + injection E as <- <-. repeat split. intros all [=].
Qed.

(** An upload that throws ends the batch: the listing stays as it was and
    one toast reports the error. *)
Lemma handleFileUpload_listing (env : Env) (batch : list Selected) (st : State) :
  files (handleFileUpload env (Some batch) st) = files st
  \/ exists records,
       files (handleFileUpload env (Some batch) st) = (records ++ files st)%list
       /\ Forall (fun r => exists x, In x batch
                                     /\ record_for env (selectedFolder st) x r)
            records.
Proof.
  destruct batch as [|x0 batch0]; [now left|].
  rewrite handleFileUpload_nonempty by discriminate.
  destruct (upload_loop env _ 0 (x0 :: batch0) [] _) as [st1 out] eqn:E.
  apply upload_loop_records in E. destruct E as [Hf [Hs [Hd Hout]]].
  destruct out as [all|].
  - right. destruct (Hout all eq_refl) as [records [-> Hrec]].
    exists records. simpl in *. rewrite Hf. split; [reflexivity | exact Hrec].
  - left. simpl in *. exact Hf.
Qed.

(** An upload that throws ends the loop without a result, and no toast
    shown before is taken back. *)
Lemma upload_loop_throws (env : Env) (total : nat) (rest : list Selected) :
  forall (i : nat) (uploadedFiles : list FileItem) (st : State),
    Exists throws rest ->
    exists st' shown,
      upload_loop env total i rest uploadedFiles st = (st', None)
      /\ files st' = files st
      /\ toasts st' = (toasts st ++ shown)%list.
Proof.
  induction rest as [|x rest IH]; intros i up st Hex; [inversion Hex|].
  simpl. destruct (response x) as [p|m|] eqn:Er.
  - assert (Hrest : Exists throws rest).
    { inversion Hex as [y ys Hx|y ys Hr]; subst; [|exact Hr].
      unfold throws in Hx. congruence. }
    edestruct (IH (S i)) as [st' [shown [E [Hf Ht]]]]; [exact Hrest|].
    rewrite E. exists st', shown. simpl in *. repeat split; assumption.
  - assert (Hrest : Exists throws rest).
    { inversion Hex as [y ys Hx|y ys Hr]; subst; [|exact Hr].
      unfold throws in Hx. congruence. }
    edestruct (IH (S i)) as [st' [shown [E [Hf Ht]]]]; [exact Hrest|].
    rewrite E. eexists st', (_ :: shown). simpl in *.
    rewrite Ht, <- List.app_assoc. repeat split; assumption.
  - eexists _, []. simpl. rewrite List.app_nil_r. repeat split.
Qed.

(** A batch with an upload that throws: the listing is as before, also
    when files were stored before the exception, and the last toast is
    the general failure toast. *)
Lemma handleFileUpload_throws (env : Env) (batch : list Selected) (st : State) :
  Exists throws batch ->
  files (handleFileUpload env (Some batch) st) = files st
  /\ exists shown,
       toasts (handleFileUpload env (Some batch) st)
       = (toasts st ++ shown
          ++ [mkToast "Upload Failed" "An error occurred during upload" Destructive])%list.
Proof.
  intros Hex.
  assert (Hne : batch <> []) by (intros ->; inversion Hex).
  rewrite (handleFileUpload_nonempty env batch st Hne).
  destruct (upload_loop_throws env (List.length batch) batch 0 []
              (setUploadProgress 0 (setIsUploading true st)) Hex)
    as [st1 [shown [E [Hf Ht]]]].
  rewrite E. simpl in *. rewrite Hf, Ht, <- List.app_assoc.
  split; [reflexivity | now exists shown].
Qed.

(** A batch in which every upload is rejected still ends with the
    summary, with the count zero. *)
Example handleFileUpload_all_rejected :
  toasts (handleFileUpload sample_env
            (Some [rejected_file "notes.txt" 12 "The resource already exists"])
            initial)
  = [mkToast "Upload Failed"
       "Failed to upload notes.txt: The resource already exists" Destructive;
     mkToast "Upload Successful" "Successfully uploaded 0 file(s)" Default].
Proof. reflexivity. Qed.

(** ** The folder of a record *)

Lemma append_assoc (a b c : string) : (a ++ b) ++ c = a ++ (b ++ c).
Proof. induction a as [|x a IH]; simpl; [reflexivity | now rewrite IH]. Qed.

Lemma free_of_cons (c a : ascii) (s : string) :
  free_of c (String a s) <-> a <> c /\ free_of c s.
Proof. unfold free_of. simpl. tauto. Qed.

Lemma split_at_first (c : ascii) (pre rest : string) :
  free_of c pre -> JS.split c (pre ++ String c rest) = pre :: JS.split c rest.
Proof.
  induction pre as [|a pre IH]; simpl; intros H.
  - now rewrite Ascii.eqb_refl.
  - apply free_of_cons in H. destruct H as [Hne H].
    apply Ascii.eqb_neq in Hne. rewrite Hne, (IH H). reflexivity.
Qed.

Lemma split_nonempty (c : ascii) (s : string) : JS.split c s <> [].
Proof.
  induction s as [|a s IH]; simpl; [discriminate|].
  destruct (Ascii.eqb a c); [discriminate|].
  destruct (JS.split c s); discriminate.
Qed.

(** The first segment of a path with a separator is what precedes the
    first separator; a path without separator is in [Root]. *)
Lemma getFolderFromPath_prefixed (folder rest : string) :
  free_of "/" folder -> getFolderFromPath (folder ++ "/" ++ rest) = folder.
Proof.
  intros H. unfold getFolderFromPath. simpl.
  rewrite (split_at_first "/" folder rest H).
  pose proof (split_nonempty "/" rest) as Hne.
  destruct (JS.split "/" rest); [now elim Hne | reflexivity].
Qed.

Lemma getFolderFromPath_flat_name (p : string) :
  free_of "/" p -> getFolderFromPath p = "Root".
Proof. intros H. unfold getFolderFromPath. now rewrite (split_free _ _ H). Qed.

Lemma seed_folders_free : Forall (free_of "/") seed_folders.
Proof.
  unfold seed_folders, free_of.
  repeat constructor; simpl; intros H;
    repeat match goal with
           | H : _ \/ _ |- _ => destruct H as [H|H]; [discriminate H|]
           end; exact H.
Qed.

(** For a selection the selector can hold, the folder written into an
    uploaded record is the folder of the destination key. *)
Lemma destination_folder (sel filename : string) :
  In sel ("all" :: seed_folders) -> free_of "/" filename ->
  getFolderFromPath (destination sel filename)
  = if sel =? "all" then "Root" else sel.
Proof.
  intros Hsel Hname. unfold destination.
  destruct (sel =? "all") eqn:E.
  - simpl. now apply getFolderFromPath_flat_name.
  - destruct Hsel as [<-|Hsel]; [discriminate E|].
    rewrite append_assoc.
    apply getFolderFromPath_prefixed.
    exact (proj1 (Forall_forall _ _) seed_folders_free sel Hsel).
Qed.

Lemma folder_invariant_initial : folder_invariant initial.
Proof. repeat split; [constructor | now left]. Qed.

Lemma loadFiles_folder_derived (env : Env) (now : Z) (resp : ListResponse) (st : State) :
  Forall folder_derived (files st) ->
  Forall folder_derived (files (loadFiles env now resp st)).
Proof.
  intros H. destruct resp as [data| |]; simpl; [|exact H|exact H].
  apply Forall_forall. intros r Hr. apply in_map_iff in Hr.
  destruct Hr as [e [<- _]]. exists (Entry.name e). split; reflexivity.
Qed.

Lemma handleFileDelete_folder_derived (fileId : string) (resp : RemoveResponse)
    (st : State) :
  Forall folder_derived (files st) ->
  Forall folder_derived (files (handleFileDelete fileId resp st)).
Proof.
  intros H. unfold handleFileDelete.
  destruct (find _ (files st)); [|exact H].
  destruct resp; simpl; try exact H.
  apply Forall_forall. intros r Hr. apply filter_In in Hr.
  exact (proj1 (Forall_forall _ _) H r (proj1 Hr)).
Qed.

Lemma handleFileUpload_folder_derived (env : Env) (batch : list Selected) (st : State) :
  In (selectedFolder st) ("all" :: seed_folders) ->
  Forall (admissible_file (selectedFolder st)) batch ->
  Forall folder_derived (files st) ->
  Forall folder_derived (files (handleFileUpload env (Some batch) st)).
Proof.
  intros Hsel Hadm H.
  destruct (handleFileUpload_listing env batch st) as [E|[records [E Hrec]]];
    rewrite E; [exact H|].
  apply Forall_app. split; [|exact H].
  eapply Forall_impl; [|exact Hrec]. simpl.
  intros r [x [Hx [p [Hresp [_ [Hpath [_ [_ [_ [_ [_ [_ Hfolder]]]]]]]]]]]].
  destruct (proj1 (Forall_forall _ _) Hadm x Hx) as [Hecho Hbase].
  exists p. split; [exact Hpath|].
  rewrite Hfolder, (Hecho p Hresp). f_equal. symmetry.
  now apply destination_folder.
Qed.

Lemma handleFileUpload_keeps (env : Env) (fs : option (list Selected)) (st : State) :
  selectedFolder (handleFileUpload env fs st) = selectedFolder st.
Proof.
  destruct fs as [[|x0 batch0]|]; try reflexivity.
  rewrite handleFileUpload_nonempty by discriminate.
  destruct (upload_loop env _ 0 (x0 :: batch0) [] _) as [st1 out] eqn:E.
  apply upload_loop_records in E. destruct E as [_ [Hs _]].
  destruct out; simpl in *; exact Hs.
Qed.

Lemma handleFileDelete_keeps (fileId : string) (resp : RemoveResponse) (st : State) :
  selectedFolder (handleFileDelete fileId resp st) = selectedFolder st.
Proof.
  unfold handleFileDelete. destruct (find _ (files st)); [|reflexivity].
  destruct resp; reflexivity.
Qed.

Lemma handleFolderCreate_keeps (st : State) :
  selectedFolder (handleFolderCreate st) = selectedFolder st
  /\ files (handleFolderCreate st) = files st.
Proof.
  unfold handleFolderCreate.
  destruct (negb _); [split; reflexivity|].
  destruct (JS.array_includes _ _); split; reflexivity.
Qed.

Lemma step_folder_invariant (env : Env) (a : Action) (st : State) :
  admissible_action st a -> folder_invariant st -> folder_invariant (step env a st).
Proof.
  intros Ha [Hf [Hd Hs]]. unfold step, folder_invariant.
  split; [|split; [reflexivity|]]; destruct a as [now resp|v|q|v|fs|i resp|];
    simpl in *; try assumption.
  - now apply loadFiles_folder_derived.
  - destruct fs as [batch|]; [|exact Hf].
    now apply handleFileUpload_folder_derived.
  - now apply handleFileDelete_folder_derived.
  - now rewrite (proj2 (handleFolderCreate_keeps st)).
  - destruct resp; exact Hs.
  - rewrite Hd in Ha. exact Ha.
  - now rewrite handleFileUpload_keeps.
  - now rewrite handleFileDelete_keeps.
  - now rewrite (proj1 (handleFolderCreate_keeps st)).
Qed.

Lemma run_folder_invariant (env : Env) (acts : list Action) :
  forall st, admissible env acts st -> folder_invariant st ->
             folder_invariant (run env acts st).
Proof.
  induction acts as [|a acts IH]; intros st Hadm Hinv; [exact Hinv|].
  destruct Hadm as [Ha Hrest]. simpl. apply IH; [exact Hrest|].
  now apply step_folder_invariant.
Qed.

(** C9: in every state the component reaches from its first render, by
    any sequence of loads, folder selections, searches, uploads, deletes
    and folder creations, every record of the listing has a path, and its
    folder is the first segment of that path when the path has a
    separator and [Root] otherwise, whether the record came from the
    loader or from an upload.  The surroundings are taken to behave as
    [admissible] says. *)
Theorem folder_is_derived_from_path (env : Env) (acts : list Action) :
  admissible env acts initial ->
  forall r, In r (files (run env acts initial)) ->
    exists p, path r = Some p
              /\ folder r = Some (getFolderFromPath p)
              /\ (free_of "/" p -> folder r = Some "Root")
              /\ (forall first rest, free_of "/" first -> p = first ++ "/" ++ rest ->
                    folder r = Some first).
Proof.
  intros Hadm r Hr.
  destruct (run_folder_invariant env acts initial Hadm folder_invariant_initial)
    as [Hf _].
  destruct (proj1 (Forall_forall _ _) Hf r Hr) as [p [Hp Hfolder]].
  exists p. split; [exact Hp|]. split; [exact Hfolder|]. split.
  - intros H. now rewrite Hfolder, getFolderFromPath_flat_name.
  - intros first rest H ->. now rewrite Hfolder, getFolderFromPath_prefixed.
Qed.

(** ** Progress *)

(** What is reported during a batch in which no upload throws: zero at
    the start, [(i + 1) / total * 100] after each stored file, where [i]
    is the position of that file in the batch, and zero at the end.
    Nothing is reported after a rejected file. *)
Lemma handleFileUpload_progress (env : Env) (batch : list Selected) (st : State) :
  batch <> [] ->
  Forall (fun x => ~ throws x) batch ->
  progressReports (handleFileUpload env (Some batch) st)
  = (progressReports st
     ++ [0%Q]
     ++ map (fun i => progress i (List.length batch)) (stored_positions 0 batch)
     ++ [0%Q])%list.
Proof.
  intros Hne Hnt. rewrite (handleFileUpload_nonempty env batch st Hne).
  destruct (upload_loop_completes env (List.length batch) batch 0 []
              (setUploadProgress 0 (setIsUploading true st)) Hnt)
    as [st1 [records [E [_ [_ [_ [_ [_ Hp]]]]]]]].
  rewrite E. simpl in Hp |- *. rewrite Hp, <- !List.app_assoc. reflexivity.
Qed.

(** C7: progress is not reported after a file whose upload is rejected.
    In the batch of [a.txt], stored, and [b.txt], rejected, the reports
    are 0, then 50 after [a.txt], then the final reset to 0: the value
    [(2 / 2) * 100 = 100] due after [b.txt] is never reported, because the
    loop moves on to the next file before it reaches the report. *)
Theorem handleFileUpload_progress_skips_rejected :
  let batch := [stored_file "a.txt" 10 "a.txt";
                rejected_file "b.txt" 20 "The resource already exists"] in
  let st' := handleFileUpload sample_env (Some batch) initial in
  progressReports st' = [0%Q; progress 0 2; 0%Q]
  /\ (progress 0 2 == 50)%Q
  /\ (progress 1 2 == 100)%Q
  /\ ~ (exists q, In q (progressReports st') /\ (q == progress 1 2)%Q).
Proof.
  split; [reflexivity|]. split; [reflexivity|]. split; [reflexivity|].
  intros [q [Hin Hq]]. simpl in Hin.
  destruct Hin as [<-|[<-|[<-|[]]]]; vm_compute in Hq; discriminate Hq.
Qed.

(** ** File sizes *)

Lemma digit_of_char_None (c : ascii) :
  JS.digit_of_char c = None ->
  Ascii.eqb c "0" = false /\ Ascii.eqb c "1" = false /\ Ascii.eqb c "2" = false
  /\ Ascii.eqb c "3" = false /\ Ascii.eqb c "4" = false /\ Ascii.eqb c "5" = false
  /\ Ascii.eqb c "6" = false /\ Ascii.eqb c "7" = false /\ Ascii.eqb c "8" = false
  /\ Ascii.eqb c "9" = false.
Proof.
  intros H.
  repeat split; apply Ascii.eqb_neq; intros ->; vm_compute in H; discriminate H.
Qed.

Lemma read_digits_stop (s : string) :
  no_digit_ahead s -> JS.read_digits s = (Decimal.Nil, s).
Proof.
  destruct s as [|c s]; simpl; intros H; [reflexivity|].
  destruct (digit_of_char_None c H)
    as [H0 [H1 [H2 [H3 [H4 [H5 [H6 [H7 [H8 H9]]]]]]]]].
  now rewrite H0, H1, H2, H3, H4, H5, H6, H7, H8, H9.
Qed.

(** Reading a printed numeral gives the numeral back. *)
Lemma read_digits_numeral (d : Decimal.uint) (rest : string) :
  no_digit_ahead rest ->
  JS.read_digits (NilEmpty.string_of_uint d ++ rest) = (d, rest).
Proof.
  intros H. induction d as [|d IH|d IH|d IH|d IH|d IH|d IH|d IH|d IH|d IH|d IH];
    [now apply read_digits_stop | ..];
    simpl; rewrite IH; reflexivity.
Qed.

Lemma to_uint_nonnil (m : N) : N.to_uint m <> Decimal.Nil.
Proof.
  destruct m as [|p]; [discriminate|]. apply DecimalPos.Unsigned.to_uint_nonnil.
Qed.

Lemma digit_round_trip (d : N) :
  (d < 10)%N -> JS.digit_of_char (JS.digit_char d) = Some d.
Proof.
  intros H.
  assert (E : d = 0%N \/ d = 1%N \/ d = 2%N \/ d = 3%N \/ d = 4%N \/ d = 5%N
              \/ d = 6%N \/ d = 7%N \/ d = 8%N \/ d = 9%N) by lia.
  repeat (destruct E as [->|E]; [reflexivity|]). now subst.
Qed.

(** [parseFloat] reads the integer part and hands over to the decimals. *)
Lemma parseFloat_numeral (m : N) (rest : string) :
  no_digit_ahead rest ->
  JS.parseFloat (JS.string_of_N m ++ rest) = JS.read_decimals (100 * m) rest.
Proof.
  intros H. unfold JS.parseFloat, JS.string_of_N.
  rewrite (read_digits_numeral _ _ H).
  pose proof (to_uint_nonnil m) as Hn.
  destruct (N.to_uint m) eqn:E; [now elim Hn | ..];
    rewrite <- E, DecimalN.Unsigned.of_to; reflexivity.
Qed.

Lemma no_digit_point (s : string) : no_digit_ahead (String "." s).
Proof. reflexivity. Qed.

Lemma no_digit_space (s : string) : no_digit_ahead (String " " s).
Proof. reflexivity. Qed.

(** Two printed decimals are read back. *)
Lemma read_decimals_two (ip f1 f2 : N) (rest : string) :
  (f1 < 10)%N -> (f2 < 10)%N ->
  JS.read_decimals ip
    (String "." (String (JS.digit_char f1) (String (JS.digit_char f2) rest)))
  = JS.Hundredths (ip + 10 * f1 + f2).
Proof.
  intros H1 H2. unfold JS.read_decimals.
  now rewrite (digit_round_trip f1 H1), (digit_round_trip f2 H2).
Qed.

(** One printed decimal followed by a space is read back. *)
Lemma read_decimals_one (ip f1 : N) (rest : string) :
  (f1 < 10)%N ->
  JS.read_decimals ip (String "." (String (JS.digit_char f1) (String " " rest)))
  = JS.Hundredths (ip + 10 * f1).
Proof. intros H1. unfold JS.read_decimals. now rewrite (digit_round_trip f1 H1). Qed.

Lemma read_decimals_none (ip : N) (rest : string) :
  JS.read_decimals ip (String " " rest) = JS.Hundredths ip.
Proof. reflexivity. Qed.

Lemma last_digit_unique (n a r b c d e : N) :
  (n = 100 * a + r -> r < 100 -> r = 10 * b + c -> c < 10 ->
   n = 10 * d + e -> e < 10 ->
   c = e /\ b < 10 /\ n = 100 * a + 10 * b + e)%N.
Proof. intros. lia. Qed.

Lemma hundredths_split (n : N) :
  (n = 100 * (n / 100) + 10 * ((n mod 100) / 10) + n mod 10)%N
  /\ ((n mod 100) / 10 < 10)%N /\ (n mod 10 < 10)%N
  /\ ((n mod 100) mod 10 = n mod 10)%N.
Proof.
  assert (T100 : 100%N <> 0%N) by discriminate.
  assert (T10 : 10%N <> 0%N) by discriminate.
  destruct (last_digit_unique n (n / 100) (n mod 100) ((n mod 100) / 10)
              ((n mod 100) mod 10) (n / 10) (n mod 10)
              (N.div_mod n 100 T100) (N.mod_lt n 100 T100)
              (N.div_mod (n mod 100) 10 T10) (N.mod_lt (n mod 100) 10 T10)
              (N.div_mod n 10 T10) (N.mod_lt n 10 T10)) as [H1 [H2 H3]].
  repeat split; try assumption. now apply N.mod_lt.
Qed.

(** What [toFixed(2)] prints, [parseFloat] reads back. *)
Lemma parseFloat_toFixed2 (num den : N) :
  JS.parseFloat (JS.toFixed2 num den)
  = JS.Hundredths ((200 * num + den) / (2 * den)).
Proof.
  unfold JS.toFixed2. set (n := ((200 * num + den) / (2 * den))%N).
  destruct (hundredths_split n) as [H1 [H2 [H3 _]]].
  rewrite parseFloat_numeral by apply no_digit_point.
  simpl append. rewrite read_decimals_two by assumption.
  f_equal. symmetry. exact H1.
Qed.

(** What [Number::toString] prints in front of a unit, [parseFloat]
    reads back. *)
Lemma parseFloat_number_to_string (n : N) (unit : string) :
  JS.parseFloat (JS.number_to_string (JS.Hundredths n) ++ " " ++ unit)
  = JS.Hundredths n.
Proof.
  unfold JS.number_to_string.
  destruct (hundredths_split n) as [H1 [H2 [H3 H4]]].
  rewrite append_assoc.
  destruct (n mod 100 =? 0)%N eqn:E0.
  - apply N.eqb_eq in E0. simpl append.
    rewrite parseFloat_numeral by apply no_digit_space.
    rewrite read_decimals_none. f_equal.
    rewrite (N.div_mod n 100) at 2 by discriminate.
    now rewrite E0, N.add_0_r.
  - rewrite parseFloat_numeral by apply no_digit_point.
    destruct ((n mod 100) mod 10 =? 0)%N eqn:E1.
    + apply N.eqb_eq in E1. simpl append.
      rewrite read_decimals_one by assumption. f_equal.
      rewrite H1 at 3. rewrite <- H4, E1. now rewrite N.add_0_r.
    + simpl append. rewrite read_decimals_two by (rewrite ?H4; assumption).
      f_equal. rewrite H4. symmetry. exact H1.
Qed.

Lemma pow_1024 (i : N) : (1024 ^ i = 2 ^ (10 * i))%N.
Proof. now rewrite N.pow_mul_r. Qed.

(** The unit index brackets the byte count between two powers of 1024. *)
Lemma floor_log_1024_bracket (b : N) :
  (0 < b)%N ->
  (1024 ^ JS.floor_log_1024 b <= b < 1024 ^ (JS.floor_log_1024 b + 1))%N.
Proof.
  intros Hb. unfold JS.floor_log_1024.
  destruct (N.log2_spec b Hb) as [Hlo Hhi].
  assert (T10 : 10%N <> 0%N) by discriminate.
  pose proof (N.div_mod (N.log2 b) 10 T10) as Hdm.
  pose proof (N.mod_lt (N.log2 b) 10 T10) as Hm.
  rewrite !pow_1024. split.
  - apply N.le_trans with (2 ^ N.log2 b)%N; [|exact Hlo].
    apply N.pow_le_mono_r; [discriminate|].
    generalize dependent (N.log2 b / 10)%N. generalize dependent (N.log2 b mod 10)%N.
    intros; lia.
  - apply N.lt_le_trans with (2 ^ N.succ (N.log2 b))%N; [exact Hhi|].
    apply N.pow_le_mono_r; [discriminate|].
    generalize dependent (N.log2 b / 10)%N. generalize dependent (N.log2 b mod 10)%N.
    intros; lia.
Qed.

Lemma pow_1024_pos (i : N) : (0 < 1024 ^ i)%N.
Proof. apply N.neq_0_lt_0, N.pow_nonzero. discriminate. Qed.

(** The index is the largest one whose power of 1024 is within the
    byte count. *)
Lemma floor_log_1024_largest (b j : N) :
  (0 < b)%N -> (1024 ^ j <= b)%N -> (j <= JS.floor_log_1024 b)%N.
Proof.
  intros Hb Hj. destruct (floor_log_1024_bracket b Hb) as [_ Hhi].
  assert (H : (1024 ^ j < 1024 ^ (JS.floor_log_1024 b + 1))%N)
    by (eapply N.le_lt_trans; eassumption).
  apply N.pow_lt_mono_r_iff in H; [lia | reflexivity].
Qed.

Lemma floor_log_1024_small (b : N) :
  (0 < b < 1024 ^ 4)%N -> (JS.floor_log_1024 b < 4)%N.
Proof.
  intros [Hb Hlt]. destruct (floor_log_1024_bracket b Hb) as [Hlo _].
  assert (H : (1024 ^ JS.floor_log_1024 b < 1024 ^ 4)%N)
    by (eapply N.le_lt_trans; eassumption).
  apply N.pow_lt_mono_r_iff in H; [exact H | reflexivity].
Qed.

(** Rounding to hundredths, half up: [n / 100] is within half a hundredth
    of [num / den]. *)
Lemma rounding_bracket (num den : N) :
  (0 < den)%N ->
  let n := ((200 * num + den) / (2 * den))%N in
  (2 * n * den <= 200 * num + den < (2 * n + 2) * den)%N.
Proof.
  intros Hden n. subst n.
  assert (T : (2 * den)%N <> 0%N) by lia.
  pose proof (N.div_mod (200 * num + den) (2 * den) T) as Hdm.
  pose proof (N.mod_lt (200 * num + den) (2 * den) T) as Hm.
  generalize dependent ((200 * num + den) / (2 * den))%N.
  generalize dependent ((200 * num + den) mod (2 * den))%N.
  intros r Hr q Hq. nia.
Qed.

Lemma rounding_range (b K : N) :
  (0 < K)%N -> (K <= b < 1024 * K)%N ->
  (100 <= (200 * b + K) / (2 * K) <= 102400)%N.
Proof.
  intros HK [Hlo Hhi]. split.
  - apply N.div_le_lower_bound; [lia | nia].
  - apply N.lt_succ_r. apply N.Div0.div_lt_upper_bound. nia.
Qed.

Lemma sizes_at_unit (i : N) :
  (i < 4)%N -> sizes_at i = nth (N.to_nat i) sizes "" /\ In (sizes_at i) sizes.
Proof.
  intros H.
  assert (E : i = 0%N \/ i = 1%N \/ i = 2%N \/ i = 3%N) by lia.
  destruct E as [ -> | [ -> | [ -> | -> ]]]; (split; [reflexivity | simpl; tauto]).
Qed.

(** The formatted size of a positive byte count, before any bound on it. *)
Lemma formatFileSize_positive (b : N) :
  (0 < b)%N ->
  formatFileSize b
  = JS.number_to_string
      (JS.Hundredths ((200 * b + 1024 ^ JS.floor_log_1024 b)
                      / (2 * 1024 ^ JS.floor_log_1024 b)))
    ++ " " ++ sizes_at (JS.floor_log_1024 b).
Proof.
  intros Hb. unfold formatFileSize.
  assert (E : (b =? 0)%N = false) by (apply N.eqb_neq; lia).
  rewrite E. cbv zeta. now rewrite parseFloat_toFixed2.
Qed.

(** One terabyte and more: the table of units has no fifth entry. *)
Lemma formatFileSize_terabyte : formatFileSize (1024 ^ 4) = "1 undefined".
Proof. vm_compute. reflexivity. Qed.

(** C3, as the code has it: zero is printed as "0 Bytes"; for a byte
    count from 1 to below 1024^4 the unit is the one of the largest index
    [i] among Bytes, KB, MB, GB with [b / 1024^i >= 1], so that the
    quotient lies in [[1, 1024)]; the number printed is the quotient
    rounded to two decimals, half up, in its shortest form; and the
    magnitude displayed lies in [[1, 1024]], the upper end included
    because the rounding can reach it. *)
Theorem formatFileSize_units :
  formatFileSize 0 = "0 Bytes"
  /\ forall b, (0 < b < 1024 ^ 4)%N ->
       exists i n : N,
         (i < 4)%N
         /\ (1024 ^ i <= b < 1024 ^ (i + 1))%N
         /\ (forall j, (1024 ^ j <= b)%N -> (j <= i)%N)
         /\ (2 * n * 1024 ^ i <= 200 * b + 1024 ^ i < (2 * n + 2) * 1024 ^ i)%N
         /\ (100 <= n <= 102400)%N
         /\ formatFileSize b
            = JS.number_to_string (JS.Hundredths n) ++ " " ++ nth (N.to_nat i) sizes ""
         /\ JS.parseFloat (formatFileSize b) = JS.Hundredths n
         /\ shown_within (formatFileSize b) 100 102401.
Proof.
  split; [reflexivity|]. intros b [Hb Hlt].
  set (i := JS.floor_log_1024 b).
  set (n := ((200 * b + 1024 ^ i) / (2 * 1024 ^ i))%N).
  pose proof (floor_log_1024_bracket b Hb) as Hbr. fold i in Hbr.
  pose proof (floor_log_1024_small b (conj Hb Hlt)) as Hi. fold i in Hi.
  pose proof (pow_1024_pos i) as HK.
  assert (Hn : (100 <= n <= 102400)%N).
  { apply rounding_range; [exact HK|]. split; [apply Hbr|].
    replace (1024 * 1024 ^ i)%N with (1024 ^ (i + 1))%N; [apply Hbr|].
    now rewrite N.add_1_r, N.pow_succ_r'. }
  assert (Hfmt : formatFileSize b
                 = JS.number_to_string (JS.Hundredths n) ++ " "
                   ++ nth (N.to_nat i) sizes "").
  { rewrite (formatFileSize_positive b Hb). fold i. fold n.
    now rewrite (proj1 (sizes_at_unit i Hi)). }
  assert (Hshown : JS.parseFloat (formatFileSize b) = JS.Hundredths n).
  { rewrite Hfmt. apply parseFloat_number_to_string. }
  exists i, n.
  split; [exact Hi|]. split; [exact Hbr|].
  split; [intros j Hj; now apply floor_log_1024_largest|].
  split; [apply (rounding_bracket b (1024 ^ i) HK)|].
  split; [exact Hn|]. split; [exact Hfmt|]. split; [exact Hshown|].
  exists n. split; [exact Hshown | lia].
Qed.

(** C3, as stated, fails at 1048575 bytes: the quotient by 1024 is
    1023.999..., which two decimals round to 1024.00, so the size is shown
    as "1024 KB" and the displayed magnitude is not below 1024. *)
Lemma formatFileSize_rounds_up_to_1024 :
  formatFileSize 1048575 = "1024 KB"
  /\ ~ shown_within (formatFileSize 1048575) 100 102400.
Proof.
  split; [vm_compute; reflexivity|].
  intros [n [H Hn]]. vm_compute in H. injection H as <-. lia.
Qed.

(** ** The theorems at work on sample data *)

Lemma handleFileUpload_batch_witness :
  let st := setSelectedFolder "Documents" sample_state in
  sample_batch <> []
  /\ Forall (fun x => ~ throws x) sample_batch
  /\ exists records shown,
       files (handleFileUpload sample_env (Some sample_batch) st)
       = (records ++ files st)%list
       /\ List.length records = 1%nat
       /\ toasts (handleFileUpload sample_env (Some sample_batch) st)
          = (toasts st ++ shown)%list
       /\ shown = [failure_toast (rejected_file "notes.txt" 12 "The resource already exists");
                   summary_toast 1].
Proof.
  intros st.
  assert (H1 : sample_batch <> []) by discriminate.
  assert (H2 : Forall (fun x => ~ throws x) sample_batch)
    by (repeat constructor; discriminate).
  split; [exact H1|]. split; [exact H2|].
  destruct (handleFileUpload_batch sample_env sample_batch st H1 H2)
    as [records [shown [Hf [_ [Hl [_ [Ht [Hs _]]]]]]]].
  exists records, shown. repeat split; assumption.
Defined.

Lemma handleFileDelete_absent_witness :
  (forall f, In f (files sample_state) -> id f <> "Images/logo.png")
  /\ handleFileDelete "Images/logo.png" RemoveOk sample_state = sample_state.
Proof.
  assert (H : forall f, In f (files sample_state) -> id f <> "Images/logo.png").
  { intros f [<-|[]]. discriminate. }
  split; [exact H|].
  exact (proj1 (handleFileDelete_absent "Images/logo.png" RemoveOk sample_state H)).
Defined.

Lemma handleFileDelete_present_witness :
  (exists f, In f (files sample_state) /\ id f = "Documents/report.pdf")
  /\ storageCalls (handleFileDelete "Documents/report.pdf" RemoveOk sample_state)
     = [RemoveCall ["Documents/report.pdf"]]
  /\ files (handleFileDelete "Documents/report.pdf" RemoveOk sample_state) = [].
Proof.
  assert (H : exists f, In f (files sample_state) /\ id f = "Documents/report.pdf").
  { exists sample_record. split; [now left | reflexivity]. }
  split; [exact H|].
  destruct (handleFileDelete_present "Documents/report.pdf" RemoveOk sample_state H)
    as [file [key [_ [_ [_ [_ [_ [_ [_ Hok]]]]]]]]].
  destruct (Hok eq_refl) as [_ [Hfiles _]].
  split; [reflexivity | exact Hfiles].
Defined.

Lemma handleFolderCreate_validation_witness :
  (let st := setNewFolderName "Design" initial in
   (blank (newFolderName st) \/ In (newFolderName st) (folders st))
   /\ folders (handleFolderCreate st) = folders st)
  /\ (let st := setNewFolderName "   " initial in
      (blank (newFolderName st) \/ In (newFolderName st) (folders st))
      /\ folders (handleFolderCreate st) = folders st)
  /\ (let st := setNewFolderName "Reports" initial in
      ~ (blank (newFolderName st) \/ In (newFolderName st) (folders st))
      /\ folders (handleFolderCreate st) = (folders st ++ ["Reports"])%list).
Proof.
  split; [|split].
  - intros st.
    assert (H : blank (newFolderName st) \/ In (newFolderName st) (folders st)).
    { right. simpl. tauto. }
    split; [exact H|].
    exact (proj1 (proj1 (handleFolderCreate_validation st) H)).
  - intros st.
    assert (H : blank (newFolderName st) \/ In (newFolderName st) (folders st)).
    { left. repeat constructor. }
    split; [exact H|].
    exact (proj1 (proj1 (handleFolderCreate_validation st) H)).
  - intros st.
    assert (H : ~ (blank (newFolderName st) \/ In (newFolderName st) (folders st))).
    { intros [H|H].
      - apply blank_cons in H. destruct H as [H _]. discriminate H.
      - simpl in H. repeat (destruct H as [H|H]; [discriminate H|]). exact H. }
    split; [exact H|].
    exact (proj1 (proj2 (handleFolderCreate_validation st) H)).
Defined.

Lemma handleFolderCreate_untrimmed_witness :
  let st := setNewFolderName " Design" initial in
  ~ blank (newFolderName st)
  /\ ~ In (newFolderName st) (folders st)
  /\ folders (handleFolderCreate st) = (folders st ++ [" Design"])%list.
Proof.
  intros st.
  assert (H1 : ~ blank (newFolderName st)).
  { intros H. apply blank_cons in H. destruct H as [_ H].
    apply blank_cons in H. destruct H as [H _]. discriminate H. }
  assert (H2 : ~ In (newFolderName st) (folders st)).
  { intros H. simpl in H. repeat (destruct H as [H|H]; [discriminate H|]). exact H. }
  split; [exact H1|]. split; [exact H2|].
  exact (proj1 (proj1 handleFolderCreate_untrimmed st H1 H2)).
Defined.

Lemma folder_is_derived_from_path_witness :
  admissible sample_env sample_session initial
  /\ forall r, In r (files (run sample_env sample_session initial)) ->
       exists p, path r = Some p /\ folder r = Some (getFolderFromPath p).
Proof.
  assert (H : admissible sample_env sample_session initial).
  { simpl. repeat split; try tauto.
    repeat constructor; simpl.
    - intros p [= <-]. reflexivity.
    - intros H. repeat (destruct H as [H|H]; [discriminate H|]). exact H. }
  split; [exact H|].
  intros r Hr.
  destruct (folder_is_derived_from_path sample_env sample_session H r Hr)
    as [p [Hp [Hf _]]].
  exists p. split; assumption.
Defined.

Lemma formatFileSize_units_witness :
  (0 < 2048 < 1024 ^ 4)%N
  /\ formatFileSize 2048 = "2 KB"
  /\ exists i n : N,
       (1024 ^ i <= 2048 < 1024 ^ (i + 1))%N
       /\ (100 <= n <= 102400)%N
       /\ JS.parseFloat (formatFileSize 2048) = JS.Hundredths n.
Proof.
  assert (H : (0 < 2048 < 1024 ^ 4)%N) by (split; reflexivity).
  split; [exact H|]. split; [reflexivity|].
  destruct (proj2 formatFileSize_units 2048%N H)
    as [i [n [_ [Hb [_ [_ [Hn [_ [Hp _]]]]]]]]].
  exists i, n. repeat split; try assumption; apply Hb || apply Hn.
Defined.

(** * Further properties of the component *)

(** ** Loading the listing *)


(** X2: a load that the storage client answers with an error, or that
    throws, leaves the listing as it was and shows no toast; and whatever
    the answer, a load sends exactly one request, for at most 100 entries
    of the root prefix from offset 0, and never shows a toast. *)
Theorem loadFiles_failure_is_silent (env : Env) (now : Z) (resp : ListResponse)
    (st : State) :
  (resp = ListError \/ resp = ListThrows ->
   files (loadFiles env now resp st) = files st
   /\ loadFiles env now resp st = storage (ListCall "" 100 0) st)
  /\ toasts (loadFiles env now resp st) = toasts st
  /\ storageCalls (loadFiles env now resp st)
     = (storageCalls st ++ [ListCall "" 100 0])%list.
Proof.
  split.
  - intros [->| ->]; split; reflexivity.
  - destruct resp; split; reflexivity.
Qed.

Lemma loadFiles_failure_is_silent_witness :
  (ListError = ListError \/ ListError = ListThrows)
  /\ files (loadFiles sample_env 0 ListError sample_state) = [sample_record]
  /\ toasts (loadFiles sample_env 0 ListError sample_state) = [].
Proof.
  assert (H : ListError = ListError \/ ListError = ListThrows) by (left; reflexivity).
  split; [exact H|].
  destruct (loadFiles_failure_is_silent sample_env 0 ListError sample_state)
    as [Hfail [Ht _]].
  destruct (Hfail H) as [Hf _].
  split; [exact Hf | exact Ht].
Defined.

(** ** What every record of the listing looks like *)

Lemma record_for_well_made (env : Env) (sel : string) (x : Selected) (r : FileItem) :
  record_for env sel x r -> well_made env r.
Proof.
  intros [p [_ [_ [Hpath [Hurl [Hname [_ [Htype [_ [Htags _]]]]]]]]]].
  split; [now rewrite Htype, Hname|]. split; [exact Htags|].
  exists p. split; assumption.
Qed.

Lemma handle_keeps_well_made (env : Env) (a : Action) (st : State) :
  Forall (well_made env) (files st) ->
  Forall (well_made env) (files (handle env a st)).
Proof.
  intros H. destruct a as [now resp|v|q|v|fs|i resp|]; simpl; try exact H.
  - destruct resp as [data| |]; simpl; try exact H.
    apply Forall_forall. intros r Hr. apply in_map_iff in Hr.
    destruct Hr as [e [<- _]].
    split; [reflexivity|]. split; [reflexivity|].
    exists (Entry.name e). split; reflexivity.
  - destruct fs as [batch|]; [|exact H].
    destruct (handleFileUpload_listing env batch st) as [E|[records [E Hrec]]];
      rewrite E; [exact H|].
    apply Forall_app. split; [|exact H].
    eapply Forall_impl; [|exact Hrec]. simpl.
    intros r [x [_ Hr]]. exact (record_for_well_made env _ x r Hr).
  - unfold handleFileDelete. destruct (find _ (files st)); [|exact H].
    destruct resp; simpl; try exact H.
    apply Forall_forall. intros r Hr. apply filter_In in Hr.
    exact (proj1 (Forall_forall _ _) H r (proj1 Hr)).
  - now rewrite (proj2 (handleFolderCreate_keeps st)).
Qed.

Lemma run_keeps_well_made (env : Env) (acts : list Action) :
  forall st, Forall (well_made env) (files st) ->
             Forall (well_made env) (files (run env acts st)).
Proof.
  induction acts as [|a acts IH]; intros st H; [exact H|].
  simpl. apply IH. unfold step. simpl. now apply handle_keeps_well_made.
Qed.

(** X3: in every state the component reaches from its first render,
    whatever the storage client answers, every record of the listing has
    the category its name gives, has no tag, and has a path together with
    the public URL of that path. *)
Theorem listing_records_are_derived (env : Env) (acts : list Action) (r : FileItem) :
  In r (files (run env acts initial)) ->
  type r = getFileType (name r)
  /\ In (type r) categories
  /\ tags r = []
  /\ exists p, path r = Some p /\ url r = Some (getPublicUrl env p).
Proof.
  intros Hr.
  assert (H0 : Forall (well_made env) (files initial)) by constructor.
  pose proof (run_keeps_well_made env acts initial H0) as H.
  destruct (proj1 (Forall_forall _ _) H r Hr) as [Ht [Hg Hp]].
  split; [exact Ht|]. split; [rewrite Ht; apply getFileType_category|].
  split; assumption.
Qed.

Lemma listing_records_are_derived_witness :
  In sample_record (files (run sample_env sample_session initial))
  /\ type sample_record = getFileType (name sample_record)
  /\ tags sample_record = [].
Proof.
  assert (H : In sample_record (files (run sample_env sample_session initial)))
    by (left; reflexivity).
  split; [exact H|].
  destruct (listing_records_are_derived sample_env sample_session sample_record H)
    as [Ht [_ [Hg _]]].
  split; assumption.
Defined.


(** ** More about a batch of uploads *)

Lemma attempted_no_throw (batch : list Selected) :
  Forall (fun x => ~ throws x) batch -> attempted batch = batch.
Proof.
  induction 1 as [|x rest Hx _ IH]; simpl; [reflexivity|].
  unfold throws in Hx. destruct (response x); [now rewrite IH | now rewrite IH | now elim Hx].
Qed.

(** The loop on any batch: requests and toasts follow the attempted
    files, the loop ends without a result exactly when an upload throws,
    and the rest of the state is not touched. *)
Lemma upload_loop_attempted (env : Env) (total : nat) (rest : list Selected) :
  forall (i : nat) (uploadedFiles : list FileItem) (st st' : State)
         (out : option (list FileItem)),
    upload_loop env total i rest uploadedFiles st = (st', out) ->
    storageCalls st'
    = (storageCalls st ++ map (upload_request (selectedFolder st)) (attempted rest))%list
    /\ toasts st'
       = (toasts st ++ map failure_toast (filter failed (attempted rest)))%list
    /\ (out = None <-> Exists throws rest)
    /\ showUploadArea st' = showUploadArea st
    /\ searchQuery st' = searchQuery st
    /\ newFolderName st' = newFolderName st
    /\ showFolderDialog st' = showFolderDialog st.
Proof.
  induction rest as [|x rest IH]; intros i up st st' out E; simpl in E.
  - injection E as <- <-. simpl. rewrite !List.app_nil_r.
    repeat split; try discriminate. intros H. inversion H.
  - simpl. unfold failed, throws in *.
    destruct (response x) as [p|m|] eqn:Er.
    + apply IH in E. destruct E as [Hc [Ht [Ho [H1 [H2 [H3 H4]]]]]].
      simpl in *. unfold failed. rewrite Er, Hc, Ht, <- !List.app_assoc.
      repeat split; try assumption.
      * intros H. apply Exists_cons_tl. now apply Ho.
      * intros H. apply Ho. inversion H as [y ys Hy|y ys Hy]; subst; [congruence | exact Hy].
    + apply IH in E. destruct E as [Hc [Ht [Ho [H1 [H2 [H3 H4]]]]]].
      assert (Eft : failure_toast x
                    = mkToast "Upload Failed"
                        ("Failed to upload " ++ File.name (file x) ++ ": " ++ m)
                        Destructive)
        by (unfold failure_toast; now rewrite Er).
      simpl in *. rewrite Er. simpl. rewrite Eft, Hc, Ht, <- !List.app_assoc.
      repeat split; try assumption.
      * intros H. apply Exists_cons_tl. now apply Ho.
      * intros H. apply Ho. inversion H as [y ys Hy|y ys Hy]; subst; [congruence | exact Hy].
    + injection E as <- <-. simpl. unfold failed. rewrite Er. simpl.
      rewrite List.app_nil_r. repeat split. intros _. now apply Exists_cons_hd.
Qed.

(** X5: the handler asks the storage client to store the selected files
    one by one, in the order of the selection, each under the key made of
    the selected folder and the file's name, and stops asking at the first
    upload that throws: the files after it are never sent.  It sends no
    other request. *)
Theorem handleFileUpload_requests (env : Env) (batch : list Selected) (st : State) :
  storageCalls (handleFileUpload env (Some batch) st)
  = (storageCalls st ++ map (upload_request (selectedFolder st)) (attempted batch))%list
  /\ (Forall (fun x => ~ throws x) batch ->
      storageCalls (handleFileUpload env (Some batch) st)
      = (storageCalls st ++ map (upload_request (selectedFolder st)) batch)%list)
  /\ (forall before x after,
        batch = (before ++ x :: after)%list ->
        Forall (fun y => ~ throws y) before -> throws x ->
        storageCalls (handleFileUpload env (Some batch) st)
        = (storageCalls st
           ++ map (upload_request (selectedFolder st)) (before ++ [x]))%list).
Proof.
  assert (Hall : storageCalls (handleFileUpload env (Some batch) st)
                 = (storageCalls st
                    ++ map (upload_request (selectedFolder st)) (attempted batch))%list).
  { destruct batch as [|x0 batch0]; [simpl; now rewrite List.app_nil_r|].
    rewrite handleFileUpload_nonempty by discriminate.
    destruct (upload_loop env _ 0 (x0 :: batch0) [] _) as [st1 out] eqn:E.
    apply upload_loop_attempted in E. destruct E as [Hc _].
    destruct out; simpl in *; exact Hc. }
  split; [exact Hall|]. split.
  - intros Hnt. now rewrite Hall, attempted_no_throw.
  - intros before x after -> Hb Hx. rewrite Hall. do 2 f_equal.
    clear Hall. induction Hb as [|y before Hy _ IH]; simpl.
    + unfold throws in Hx. now rewrite Hx.
    + unfold throws in Hy. destruct (response y); [now rewrite IH | now rewrite IH | now elim Hy].
Qed.

Lemma handleFileUpload_requests_witness :
  let thrown := mkSelected (File.mk "b.txt" 1) UploadThrows 0 in
  let batch := [stored_file "a.txt" 1 "a.txt"; thrown; stored_file "c.txt" 1 "c.txt"] in
  batch = ([stored_file "a.txt" 1 "a.txt"] ++ thrown :: [stored_file "c.txt" 1 "c.txt"])%list
  /\ Forall (fun y => ~ throws y) [stored_file "a.txt" 1 "a.txt"]
  /\ throws thrown
  /\ storageCalls (handleFileUpload sample_env (Some batch) initial)
     = [UploadCall "a.txt" (File.mk "a.txt" 1); UploadCall "b.txt" (File.mk "b.txt" 1)].
Proof.
  intros thrown batch.
  assert (H1 : batch = ([stored_file "a.txt" 1 "a.txt"]
                        ++ thrown :: [stored_file "c.txt" 1 "c.txt"])%list)
    by reflexivity.
  assert (H2 : Forall (fun y => ~ throws y) [stored_file "a.txt" 1 "a.txt"])
    by (repeat constructor; discriminate).
  assert (H3 : throws thrown) by reflexivity.
  split; [exact H1|]. split; [exact H2|]. split; [exact H3|].
  exact (proj2 (proj2 (handleFileUpload_requests sample_env batch initial))
           _ _ _ H1 H2 H3).
Defined.

(** X6: when an upload of the batch throws, the listing stays as it
    was, also when files before it were stored; the toasts shown are those
    of the files rejected before the exception, followed by one general
    "Upload Failed" toast; no summary is shown and the upload panel stays
    as it was. *)
Theorem handleFileUpload_exception (env : Env) (batch : list Selected) (st : State) :
  Exists throws batch ->
  files (handleFileUpload env (Some batch) st) = files st
  /\ toasts (handleFileUpload env (Some batch) st)
     = (toasts st
        ++ map failure_toast (filter failed (attempted batch))
        ++ [mkToast "Upload Failed" "An error occurred during upload" Destructive])%list
  /\ (forall t, In t (toasts (handleFileUpload env (Some batch) st)) ->
                title t = "Upload Successful" -> In t (toasts st))
  /\ showUploadArea (handleFileUpload env (Some batch) st) = showUploadArea st.
Proof.
  intros Hex.
  assert (Hne : batch <> []) by (intros ->; inversion Hex).
  rewrite (handleFileUpload_nonempty env batch st Hne).
  destruct (upload_loop env _ 0 batch [] _) as [st1 out] eqn:E.
  pose proof (upload_loop_records _ _ _ _ _ _ _ _ E) as [Hf _].
  apply upload_loop_attempted in E. destruct E as [_ [Ht [Ho [Hp _]]]].
  apply Ho in Hex. subst out. simpl in *.
  rewrite Hf, Ht, Hp, <- List.app_assoc.
  split; [reflexivity|]. split; [reflexivity|]. split; [|reflexivity].
  intros t Hin Htitle.
  apply in_app_or in Hin. destruct Hin as [Hin|Hin]; [exact Hin|].
  exfalso. apply in_app_or in Hin. destruct Hin as [Hin|[<-|[]]].
  - apply in_map_iff in Hin. destruct Hin as [x [<- _]]. discriminate Htitle.
  - discriminate Htitle.
Qed.

Lemma handleFileUpload_exception_witness :
  let thrown := mkSelected (File.mk "b.txt" 1) UploadThrows 0 in
  let batch := [stored_file "a.txt" 1 "a.txt"; thrown] in
  Exists throws batch
  /\ files (handleFileUpload sample_env (Some batch) sample_state) = [sample_record].
Proof.
  intros thrown batch.
  assert (H : Exists throws batch) by (apply Exists_cons_tl, Exists_cons_hd; reflexivity).
  split; [exact H|].
  exact (proj1 (handleFileUpload_exception sample_env batch sample_state H)).
Defined.

(** X7: whatever the storage client answers for a batch of at least one
    file, the handler ends with the uploading flag off and the progress
    back at zero, and it leaves the search query, the folder selection,
    the folder array and the folder dialog alone. *)
Theorem handleFileUpload_cleans_up (env : Env) (batch : list Selected) (st : State) :
  batch <> [] ->
  isUploading (handleFileUpload env (Some batch) st) = false
  /\ uploadProgress (handleFileUpload env (Some batch) st) = 0%Q
  /\ searchQuery (handleFileUpload env (Some batch) st) = searchQuery st
  /\ selectedFolder (handleFileUpload env (Some batch) st) = selectedFolder st
  /\ folders (handleFileUpload env (Some batch) st) = folders st
  /\ newFolderName (handleFileUpload env (Some batch) st) = newFolderName st
  /\ showFolderDialog (handleFileUpload env (Some batch) st) = showFolderDialog st.
Proof.
  intros Hne. rewrite (handleFileUpload_nonempty env batch st Hne).
  destruct (upload_loop env _ 0 batch [] _) as [st1 out] eqn:E.
  pose proof (upload_loop_records _ _ _ _ _ _ _ _ E) as [_ [Hs [Hd _]]].
  apply upload_loop_attempted in E. destruct E as [_ [_ [_ [_ [H2 [H3 H4]]]]]].
  destruct out; simpl in *; rewrite Hs, Hd, H2, H3, H4; repeat split.
Qed.

Lemma handleFileUpload_cleans_up_witness :
  sample_batch <> []
  /\ isUploading (handleFileUpload sample_env (Some sample_batch) sample_state) = false
  /\ uploadProgress (handleFileUpload sample_env (Some sample_batch) sample_state) = 0%Q.
Proof.
  assert (H : sample_batch <> []) by discriminate.
  split; [exact H|].
  destruct (handleFileUpload_cleans_up sample_env sample_batch sample_state H)
    as [H1 [H2 _]].
  split; assumption.
Defined.

Lemma stored_positions_length (rest : list Selected) :
  forall i, List.length (stored_positions i rest) = List.length (filter succeeded rest).
Proof.
  induction rest as [|x rest IH]; intros i; simpl; [reflexivity|].
  destruct (succeeded x); simpl; now rewrite IH.
Qed.

Lemma stored_positions_app (before after : list Selected) :
  forall i, stored_positions i (before ++ after)
            = (stored_positions i before
               ++ stored_positions (i + List.length before) after)%list.
Proof.
  induction before as [|x before IH]; intros i; simpl.
  - now rewrite Nat.add_0_r.
  - rewrite IH. replace (S i + List.length before)%nat
      with (i + S (List.length before))%nat by lia.
    destruct (succeeded x); reflexivity.
Qed.

(** The report after the last file of a batch, when it is stored: the
    quotient is one, so the value is 100, in the rationals as in double
    precision. *)
Lemma progress_complete (n : nat) : (progress n (n + 1) == 100)%Q.
Proof.
  unfold progress.
  assert (H : ~ (inject_Z (Z.of_nat (n + 1)) == 0)%Q).
  { unfold Qeq. simpl. lia. }
  unfold Qdiv. rewrite (Qmult_inv_r _ H). reflexivity.
Qed.

(** X8: during a batch in which no upload throws, the progress is set
    to zero, then reported exactly once per stored file and never for a
    rejected one, then set back to zero; and when the last file of the
    batch is stored, the last report before the reset is 100. *)
Theorem handleFileUpload_progress_count (env : Env) (batch : list Selected) (st : State) :
  batch <> [] ->
  Forall (fun x => ~ throws x) batch ->
  exists during,
    progressReports (handleFileUpload env (Some batch) st)
    = (progressReports st ++ [0%Q] ++ during ++ [0%Q])%list
    /\ List.length during = List.length (filter succeeded batch)
    /\ (forall before x,
          batch = (before ++ [x])%list -> succeeded x = true ->
          exists earlier q, during = (earlier ++ [q])%list /\ (q == 100)%Q).
Proof.
  intros Hne Hnt.
  exists (map (fun i => progress i (List.length batch)) (stored_positions 0 batch)).
  split; [now apply handleFileUpload_progress|].
  split; [now rewrite List.length_map, stored_positions_length|].
  intros before x -> Hx.
  rewrite stored_positions_app. simpl. rewrite Hx.
  rewrite List.length_app, List.map_app. simpl.
  eexists. eexists. split; [reflexivity|]. apply progress_complete.
Qed.

Lemma handleFileUpload_progress_count_witness :
  let batch := [rejected_file "notes.txt" 12 "The resource already exists";
                stored_file "report.pdf" 2048 "report.pdf"] in
  batch <> []
  /\ Forall (fun x => ~ throws x) batch
  /\ exists during,
       progressReports (handleFileUpload sample_env (Some batch) initial)
       = ([0%Q] ++ during ++ [0%Q])%list
       /\ List.length during = 1%nat
       /\ exists earlier q, during = (earlier ++ [q])%list /\ (q == 100)%Q.
Proof.
  intros batch.
  assert (H1 : batch <> []) by discriminate.
  assert (H2 : Forall (fun x => ~ throws x) batch)
    by (repeat constructor; discriminate).
  split; [exact H1|]. split; [exact H2|].
  destruct (handleFileUpload_progress_count sample_env batch initial H1 H2)
    as [during [Hp [Hl Hlast]]].
  exists during. split; [exact Hp|]. split; [exact Hl|].
  exact (Hlast [rejected_file "notes.txt" 12 "The resource already exists"]
           (stored_file "report.pdf" 2048 "report.pdf") eq_refl eq_refl).
Defined.

(** X9: the records a batch adds to the listing are visible at once
    under the folder selection they were uploaded with: every record of
    the listing after the batch that was not there before passes the
    folder selector, and with an empty search box it is in the filtered
    view. *)
Theorem handleFileUpload_new_records_visible (env : Env) (batch : list Selected)
    (st : State) (r : FileItem) :
  In r (files (handleFileUpload env (Some batch) st)) ->
  In r (files st)
  \/ (matchesFolder (selectedFolder st) r = true
      /\ In r (filteredFiles (files (handleFileUpload env (Some batch) st)) ""
                 (selectedFolder (handleFileUpload env (Some batch) st)))).
Proof.
  intros Hr.
  destruct (handleFileUpload_listing env batch st) as [E|[records [E Hrec]]].
  - left. now rewrite <- E.
  - rewrite E in Hr. apply in_app_or in Hr. destruct Hr as [Hr|Hr]; [|now left].
    right.
    destruct (proj1 (Forall_forall _ _) Hrec r Hr)
      as [x [_ [p [_ [_ [_ [_ [_ [_ [_ [_ [_ Hfolder]]]]]]]]]]]].
    assert (Hm : matchesFolder (selectedFolder st) r = true).
    { unfold matchesFolder. rewrite Hfolder.
      destruct (selectedFolder st =? "all") eqn:Ea; [reflexivity|].
      simpl. apply String.eqb_refl. }
    split; [exact Hm|].
    unfold filteredFiles. apply filter_In. split.
    + rewrite E. apply in_or_app. now left.
    + rewrite matchesSearch_empty, handleFileUpload_keeps. exact Hm.
Qed.

Lemma handleFileUpload_new_records_visible_witness :
  let st := setSelectedFolder "Documents" initial in
  let st' := handleFileUpload sample_env (Some sample_batch) st in
  In sample_record (files st')
  /\ In sample_record (filteredFiles (files st') "" (selectedFolder st')).
Proof.
  intros st st'.
  assert (H : In sample_record (files st')) by (left; reflexivity).
  split; [exact H|].
  destruct (handleFileUpload_new_records_visible sample_env sample_batch st
              sample_record H) as [Hold|[_ Hview]].
  - destruct Hold.
  - exact Hview.
Defined.

(** ** More about delete *)

Lemma filter_removes_id (fileId : string) (l : list FileItem) :
  forall f, In f (filter (fun f => negb (id f =? fileId)) l) -> id f <> fileId.
Proof.
  intros f Hf. apply filter_In in Hf. destruct Hf as [_ Hf].
  apply negb_true_iff in Hf. now apply String.eqb_neq.
Qed.

(** X10: deleting the same identity again after a successful delete does
    nothing: the record is gone, so the second call changes no part of
    the state, sends no request and shows no toast, whatever the storage
    client would have answered. *)
Theorem handleFileDelete_twice (fileId : string) (resp : RemoveResponse) (st : State) :
  handleFileDelete fileId resp (handleFileDelete fileId RemoveOk st)
  = handleFileDelete fileId RemoveOk st.
Proof.
  assert (Habsent : forall f, In f (files (handleFileDelete fileId RemoveOk st)) ->
                              id f <> fileId).
  { unfold handleFileDelete.
    destruct (find (fun f => id f =? fileId) (files st)) eqn:E; simpl.
    - apply filter_removes_id.
    - now apply find_none_iff. }
  apply find_none_iff in Habsent.
  unfold handleFileDelete at 1. now rewrite Habsent.
Qed.

(** X11: storing one file and then deleting it gives the old listing
    back, provided the listing held no record with the stored path as its
    identity; the two requests sent are the upload under the destination
    key and the removal of the stored path. *)
Theorem upload_then_delete (env : Env) (x : Selected) (p : string) (st : State) :
  response x = UploadData p ->
  p <> "" ->
  (forall f, In f (files st) -> id f <> p) ->
  let st' := handleFileDelete p RemoveOk (handleFileUpload env (Some [x]) st) in
  files st' = files st
  /\ storageCalls st'
     = (storageCalls st
        ++ [upload_request (selectedFolder st) x; RemoveCall [p]])%list.
Proof.
  intros Hx Hp Hfresh. simpl. rewrite Hx. unfold handleFileDelete. simpl.
  rewrite String.eqb_refl. simpl.
  split.
  - now apply filter_other_ids.
  - rewrite <- List.app_assoc. simpl. destruct p; [now elim Hp | reflexivity].
Qed.

Lemma upload_then_delete_witness :
  let x := stored_file "logo.png" 512 "Images/logo.png" in
  response x = UploadData "Images/logo.png"
  /\ "Images/logo.png" <> ""
  /\ (forall f, In f (files sample_state) -> id f <> "Images/logo.png")
  /\ files (handleFileDelete "Images/logo.png" RemoveOk
              (handleFileUpload sample_env (Some [x]) sample_state))
     = files sample_state.
Proof.
  intros x.
  assert (H1 : response x = UploadData "Images/logo.png") by reflexivity.
  assert (H2 : "Images/logo.png" <> "") by discriminate.
  assert (H3 : forall f, In f (files sample_state) -> id f <> "Images/logo.png").
  { intros f [<-|[]]. discriminate. }
  split; [exact H1|]. split; [exact H2|]. split; [exact H3|].
  exact (proj1 (upload_then_delete sample_env x "Images/logo.png" sample_state H1 H2 H3)).
Defined.

Lemma filter_swap {A : Type} (p q : A -> bool) (l : list A) :
  filter p (filter q l) = filter q (filter p l).
Proof.
  induction l as [|a l IH]; simpl; [reflexivity|].
  destruct (p a) eqn:Ep, (q a) eqn:Eq; simpl; rewrite ?Ep, ?Eq, IH; reflexivity.
Qed.

(** X12: a delete acts on every filtered view the way it acts on the
    listing: after a successful delete the view for any query and folder
    selection is the view from before without the records of that
    identity, the others in their order; after a failed delete every view
    is as before. *)
Theorem handleFileDelete_view (fileId : string) (resp : RemoveResponse) (st : State)
    (q sel : string) :
  (resp = RemoveOk ->
   filteredFiles (files (handleFileDelete fileId resp st)) q sel
   = filter (fun f => negb (id f =? fileId)) (filteredFiles (files st) q sel))
  /\ (resp <> RemoveOk ->
      filteredFiles (files (handleFileDelete fileId resp st)) q sel
      = filteredFiles (files st) q sel).
Proof.
  unfold handleFileDelete. split.
  - intros ->.
    destruct (find (fun f => id f =? fileId) (files st)) eqn:E; simpl.
    + unfold filteredFiles. apply filter_swap.
    + symmetry. apply filter_other_ids. intros f Hf.
      unfold filteredFiles in Hf. apply filter_In in Hf.
      exact (proj1 (find_none_iff fileId (files st)) E f (proj1 Hf)).
  - intros Hne. destruct (find (fun f => id f =? fileId) (files st)); [|reflexivity].
    destruct resp; [now elim Hne | reflexivity | reflexivity].
Qed.

Lemma handleFileDelete_view_witness :
  RemoveOk = RemoveOk
  /\ RemoveError <> RemoveOk
  /\ filteredFiles (files (handleFileDelete "Documents/report.pdf" RemoveOk sample_state))
       "report" "all" = []
  /\ filteredFiles (files (handleFileDelete "Documents/report.pdf" RemoveError
                             sample_state)) "report" "all" = [sample_record].
Proof.
  assert (H1 : RemoveOk = RemoveOk) by reflexivity.
  assert (H2 : RemoveError <> RemoveOk) by discriminate.
  split; [exact H1|]. split; [exact H2|]. split.
  - rewrite (proj1 (handleFileDelete_view "Documents/report.pdf" RemoveOk sample_state
                      "report" "all") H1). reflexivity.
  - rewrite (proj2 (handleFileDelete_view "Documents/report.pdf" RemoveError sample_state
                      "report" "all") H2). reflexivity.
Defined.

(** ** More about folder creation *)

Lemma handleFolderCreate_accepts (st : State) :
  ~ blank (newFolderName st) ->
  ~ In (newFolderName st) (folders st) ->
  handleFolderCreate st
  = setShowFolderDialog false
      (setNewFolderName ""
         (toast (folder_created_toast (newFolderName st))
            (folders_push (newFolderName st) st))).
Proof.
  intros Hb Hin. apply truthy_trim in Hb. apply array_includes_false in Hin.
  unfold handleFolderCreate. now rewrite Hb, Hin.
Qed.

Lemma step_type_then_create (env : Env) (name : string) (st : State) :
  ~ blank name ->
  ~ In name seed_folders ->
  step env CreateFolder (step env (TypeFolderName name) st)
  = render (setShowFolderDialog false
              (setNewFolderName "" (toast (folder_created_toast name) st))).
Proof.
  intros Hb Hin. unfold step at 1. cbn [handle].
  rewrite handleFolderCreate_accepts; [reflexivity | exact Hb | exact Hin].
Qed.

(** X13: a created folder does not outlive the handler: the component
    rebuilds its folder array at the next render, so after typing a name
    that is not blank and not a seed folder and creating it, the array is
    the six seed folders again and does not hold the name; typing and
    creating the same name once more is accepted once more, with a second
    "Folder Created" toast and no "already exists" error. *)
Theorem created_folder_is_forgotten (env : Env) (name : string) (st : State) :
  ~ blank name ->
  ~ In name seed_folders ->
  let st1 := step env CreateFolder (step env (TypeFolderName name) st) in
  let st2 := step env CreateFolder (step env (TypeFolderName name) st1) in
  folders st1 = seed_folders
  /\ ~ In name (folders st1)
  /\ toasts st1 = (toasts st ++ [folder_created_toast name])%list
  /\ folders st2 = seed_folders
  /\ toasts st2
     = (toasts st ++ [folder_created_toast name; folder_created_toast name])%list.
Proof.
  intros Hb Hin st1 st2. subst st2 st1.
  rewrite !(step_type_then_create env name _ Hb Hin).
  cbn [folders toasts render setShowFolderDialog setNewFolderName toast].
  rewrite <- List.app_assoc. repeat split. exact Hin.
Qed.

Lemma created_folder_is_forgotten_witness :
  let st1 := step sample_env CreateFolder (step sample_env (TypeFolderName "Reports") initial) in
  ~ blank "Reports"
  /\ ~ In "Reports" seed_folders
  /\ folders st1 = seed_folders
  /\ List.length (toasts (step sample_env CreateFolder
                            (step sample_env (TypeFolderName "Reports") st1))) = 2%nat.
Proof.
  intros st1.
  assert (H1 : ~ blank "Reports").
  { intros H. apply blank_cons in H. destruct H as [H _]. discriminate H. }
  assert (H2 : ~ In "Reports" seed_folders).
  { intros H. simpl in H. repeat (destruct H as [H|H]; [discriminate H|]). exact H. }
  split; [exact H1|]. split; [exact H2|].
  destruct (created_folder_is_forgotten sample_env "Reports" initial H1 H2)
    as [Hf [_ [_ [_ Ht]]]].
  split; [exact Hf|]. fold st1 in Ht. now rewrite Ht.
Defined.

(** X14: folder creation is local to the component: accepted or
    rejected, it sends no request to the storage client and leaves the
    listing, the search query and the folder selection alone.  When the
    name is rejected the dialog and the typed text stay as they are; when
    it is accepted the text field is emptied and the dialog is closed. *)
Theorem handleFolderCreate_is_local (st : State) :
  storageCalls (handleFolderCreate st) = storageCalls st
  /\ files (handleFolderCreate st) = files st
  /\ searchQuery (handleFolderCreate st) = searchQuery st
  /\ selectedFolder (handleFolderCreate st) = selectedFolder st
  /\ ((blank (newFolderName st) \/ In (newFolderName st) (folders st)) ->
      newFolderName (handleFolderCreate st) = newFolderName st
      /\ showFolderDialog (handleFolderCreate st) = showFolderDialog st)
  /\ (~ (blank (newFolderName st) \/ In (newFolderName st) (folders st)) ->
      newFolderName (handleFolderCreate st) = ""
      /\ showFolderDialog (handleFolderCreate st) = false).
Proof.
  unfold handleFolderCreate.
  destruct (negb (JS.truthy (JS.trim (newFolderName st)))) eqn:Eb.
  - do 4 (split; [reflexivity|]). split.
    + intros _. split; reflexivity.
    + intros H. exfalso. apply H. left. now apply falsy_trim.
  - destruct (JS.array_includes (folders st) (newFolderName st)) eqn:Ei.
    + do 4 (split; [reflexivity|]). split.
      * intros _. split; reflexivity.
      * intros H. exfalso. apply H. right. now apply array_includes_In.
    + do 4 (split; [reflexivity|]). split.
      * intros [H|H]; exfalso.
        -- apply falsy_trim in H. congruence.
        -- apply array_includes_In in H. congruence.
      * intros _. split; reflexivity.
Qed.

Lemma handleFolderCreate_is_local_witness :
  (let st := setShowFolderDialog true (setNewFolderName "Design" initial) in
   (blank (newFolderName st) \/ In (newFolderName st) (folders st))
   /\ newFolderName (handleFolderCreate st) = "Design"
   /\ showFolderDialog (handleFolderCreate st) = true)
  /\ (let st := setShowFolderDialog true (setNewFolderName "Reports" initial) in
      ~ (blank (newFolderName st) \/ In (newFolderName st) (folders st))
      /\ newFolderName (handleFolderCreate st) = ""
      /\ showFolderDialog (handleFolderCreate st) = false).
Proof.
  split; intros st.
  - assert (H : blank (newFolderName st) \/ In (newFolderName st) (folders st)).
    { right. simpl. tauto. }
    split; [exact H|].
    destruct (handleFolderCreate_is_local st) as [_ [_ [_ [_ [Hrej _]]]]].
    exact (Hrej H).
  - assert (H : ~ (blank (newFolderName st) \/ In (newFolderName st) (folders st))).
    { intros [H|H].
      - apply blank_cons in H. destruct H as [H _]. discriminate H.
      - simpl in H. repeat (destruct H as [H|H]; [discriminate H|]). exact H. }
    split; [exact H|].
    destruct (handleFolderCreate_is_local st) as [_ [_ [_ [_ [_ Hacc]]]]].
    exact (Hacc H).
Defined.

(** ** More about file sizes *)

Lemma floor_log_1024_unique (b i : N) :
  (1024 ^ i <= b < 1024 ^ (i + 1))%N -> JS.floor_log_1024 b = i.
Proof.
  intros [Hlo Hhi].
  assert (Hpos : (0 < b)%N).
  { eapply N.lt_le_trans; [apply (pow_1024_pos i) | exact Hlo]. }
  pose proof (floor_log_1024_largest b i Hpos Hlo) as H1.
  destruct (floor_log_1024_bracket b Hpos) as [Hlo' _].
  assert (H2 : (1024 ^ JS.floor_log_1024 b < 1024 ^ (i + 1))%N)
    by (eapply N.le_lt_trans; eassumption).
  apply N.pow_lt_mono_r_iff in H2; [lia | reflexivity].
Qed.

(** X15: from 1024^4 bytes up to below 2^49, where the double quotient
    of the logarithms has the floor computed here, the unit index is 4,
    one past the end of the table of units, so no entry is read: the size
    is shown as the byte count divided by 1024^4, rounded to two decimals,
    followed by "undefined" instead of a unit. *)
Theorem formatFileSize_beyond_units (b : N) :
  (1024 ^ 4 <= b < 2 ^ 49)%N ->
  JS.floor_log_1024 b = 4%N
  /\ nth_error sizes (N.to_nat (JS.floor_log_1024 b)) = None
  /\ exists n : N,
       (2 * n * 1024 ^ 4 <= 200 * b + 1024 ^ 4 < (2 * n + 2) * 1024 ^ 4)%N
       /\ (100 <= n <= 51200)%N
       /\ formatFileSize b = JS.number_to_string (JS.Hundredths n) ++ " undefined".
Proof.
  intros [Hlo Hhi].
  assert (Hpos : (0 < b)%N).
  { eapply N.lt_le_trans; [apply (pow_1024_pos 4) | exact Hlo]. }
  assert (Hi : JS.floor_log_1024 b = 4%N).
  { apply floor_log_1024_unique. split; [exact Hlo|].
    eapply N.lt_trans; [exact Hhi | reflexivity]. }
  rewrite Hi. split; [reflexivity|]. split; [reflexivity|].
  exists ((200 * b + 1024 ^ 4) / (2 * 1024 ^ 4))%N.
  split; [apply (rounding_bracket b (1024 ^ 4) (pow_1024_pos 4))|]. split.
  - split.
    + apply N.div_le_lower_bound; [discriminate|].
      change (1024 ^ 4)%N with 1099511627776%N in *. lia.
    + apply N.lt_succ_r. apply N.Div0.div_lt_upper_bound.
      change (1024 ^ 4)%N with 1099511627776%N in *.
      change (2 ^ 49)%N with 562949953421312%N in Hhi. lia.
  - rewrite (formatFileSize_positive b Hpos), Hi. reflexivity.
Qed.

Lemma formatFileSize_beyond_units_witness :
  (1024 ^ 4 <= 5 * 1024 ^ 4 < 2 ^ 49)%N
  /\ JS.floor_log_1024 (5 * 1024 ^ 4) = 4%N
  /\ formatFileSize (5 * 1024 ^ 4) = "5 undefined".
Proof.
  assert (H : (1024 ^ 4 <= 5 * 1024 ^ 4 < 2 ^ 49)%N)
    by (split; [vm_compute; discriminate | reflexivity]).
  split; [exact H|].
  split; [exact (proj1 (formatFileSize_beyond_units (5 * 1024 ^ 4)%N H))|].
  vm_compute. reflexivity.
Defined.

Lemma number_to_string_whole (m : N) :
  JS.number_to_string (JS.Hundredths (100 * m)) = JS.string_of_N m.
Proof.
  unfold JS.number_to_string.
  assert (E1 : ((100 * m) mod 100 = 0)%N).
  { rewrite N.mul_comm. apply N.Div0.mod_mul. }
  assert (E2 : ((100 * m) / 100 = m)%N).
  { rewrite N.mul_comm. apply N.div_mul. discriminate. }
  rewrite E1, E2. simpl.
  generalize (JS.string_of_N m). intros s.
  induction s as [|c s IH]; simpl; [reflexivity | now rewrite IH].
Qed.

(** X16: a whole number of units is printed without decimals: for
    [1 <= m < 1024] and a unit index [i] below 4, [m * 1024^i] bytes are
    shown as the decimal numeral of [m] followed by the unit; so a count
    below 1024 is shown as itself followed by "Bytes". *)
Theorem formatFileSize_whole_units (m i : N) :
  (1 <= m < 1024)%N ->
  (i < 4)%N ->
  formatFileSize (m * 1024 ^ i)
  = JS.string_of_N m ++ " " ++ nth (N.to_nat i) sizes ""
  /\ (i = 0%N -> formatFileSize m = JS.string_of_N m ++ " Bytes").
Proof.
  intros [Hm1 Hm2] Hi.
  pose proof (pow_1024_pos i) as HK.
  assert (Hbr : (1024 ^ i <= m * 1024 ^ i < 1024 ^ (i + 1))%N).
  { rewrite N.add_1_r, N.pow_succ_r'. split; nia. }
  assert (Hpos : (0 < m * 1024 ^ i)%N) by nia.
  assert (Hfmt : formatFileSize (m * 1024 ^ i)
                 = JS.string_of_N m ++ " " ++ nth (N.to_nat i) sizes "").
  { rewrite (formatFileSize_positive _ Hpos).
    rewrite (floor_log_1024_unique _ i Hbr).
    rewrite (proj1 (sizes_at_unit i Hi)).
    assert (En : ((200 * (m * 1024 ^ i) + 1024 ^ i) / (2 * 1024 ^ i) = 100 * m)%N).
    { replace (200 * (m * 1024 ^ i) + 1024 ^ i)%N
        with (100 * m * (2 * 1024 ^ i) + 1024 ^ i)%N by lia.
      rewrite N.div_add_l by lia.
      rewrite (N.div_small (1024 ^ i) (2 * 1024 ^ i)) by lia. lia. }
    now rewrite En, number_to_string_whole. }
  split; [exact Hfmt|].
  intros ->. simpl in Hfmt. now rewrite N.mul_1_r in Hfmt.
Qed.

Lemma formatFileSize_whole_units_witness :
  (1 <= 2 < 1024)%N /\ (1 < 4)%N /\ formatFileSize 2048 = "2 KB".
Proof.
  assert (H1 : (1 <= 2 < 1024)%N) by (split; [discriminate | reflexivity]).
  assert (H2 : (1 < 4)%N) by reflexivity.
  split; [exact H1|]. split; [exact H2|].
  exact (proj1 (formatFileSize_whole_units 2 1 H1 H2)).
Defined.

(** ** More about classification *)

Lemma caseless_dot : caseless ".".
Proof.
  intros a. split.
  - destruct a as [[] [] [] [] [] [] [] []]; intros H; try reflexivity;
      vm_compute in H; discriminate H.
  - intros ->. reflexivity.
Qed.

Lemma lower_char_idempotent (a : ascii) :
  JS.lower_char (JS.lower_char a) = JS.lower_char a.
Proof. destruct a as [[] [] [] [] [] [] [] []]; reflexivity. Qed.

Lemma toLowerCase_idempotent (s : string) :
  JS.toLowerCase (JS.toLowerCase s) = JS.toLowerCase s.
Proof.
  induction s as [|a s IH]; simpl; [reflexivity|].
  now rewrite lower_char_idempotent, IH.
Qed.

Lemma split_toLowerCase (c : ascii) (s : string) :
  caseless c ->
  JS.split c (JS.toLowerCase s) = map JS.toLowerCase (JS.split c s).
Proof.
  intros Hc. induction s as [|a s IH]; simpl; [reflexivity|].
  destruct (Ascii.eqb a c) eqn:E.
  - apply Ascii.eqb_eq in E. subst a.
    rewrite (proj2 (Hc c) eq_refl), Ascii.eqb_refl. simpl. now rewrite IH.
  - assert (E' : Ascii.eqb (JS.lower_char a) c = false).
    { apply Ascii.eqb_neq. intros H. apply (proj1 (Hc a)) in H.
      rewrite H, Ascii.eqb_refl in E. discriminate E. }
    rewrite E', IH. destruct (JS.split c s); reflexivity.
Qed.

Lemma pop_map (f : string -> string) (l : list string) :
  JS.pop (map f l) = option_map f (JS.pop l).
Proof.
  induction l as [|x l IH]; [reflexivity|].
  destruct l as [|y l]; [reflexivity|]. exact IH.
Qed.

Lemma extension_toLowerCase (f : string) :
  extension (JS.toLowerCase f) = extension f.
Proof.
  unfold extension. rewrite (split_toLowerCase "." f caseless_dot), pop_map.
  destruct (JS.pop (JS.split "." f)) as [e|]; simpl; [|reflexivity].
  now rewrite toLowerCase_idempotent.
Qed.

(** X17: the classification ignores case in the whole name: two names
    that are equal once lower-cased get the same category, and a name and
    its lower-cased form get the same category. *)
Theorem getFileType_ignores_case (f g : string) :
  JS.toLowerCase f = JS.toLowerCase g ->
  getFileType f = getFileType g
  /\ getFileType (JS.toLowerCase f) = getFileType f.
Proof.
  intros H. split.
  - apply getFileType_depends_on_extension.
    now rewrite <- (extension_toLowerCase f), <- (extension_toLowerCase g), H.
  - apply getFileType_depends_on_extension, extension_toLowerCase.
Qed.

Lemma getFileType_ignores_case_witness :
  JS.toLowerCase "Holiday.JPG" = JS.toLowerCase "holiday.jpg"
  /\ getFileType "Holiday.JPG" = getFileType "holiday.jpg".
Proof.
  assert (H : JS.toLowerCase "Holiday.JPG" = JS.toLowerCase "holiday.jpg")
    by reflexivity.
  split; [exact H|].
  exact (proj1 (getFileType_ignores_case "Holiday.JPG" "holiday.jpg" H)).
Defined.

Lemma split_single (c : ascii) (s p : string) :
  JS.split c s = [p] -> free_of c s.
Proof.
  revert p. induction s as [|a s IH]; intros p H.
  - intros [].
  - simpl in H. destruct (Ascii.eqb a c) eqn:E.
    + injection H as _ H. now apply split_nonempty in H.
    + destruct (JS.split c s) as [|q qs] eqn:Es; [now apply split_nonempty in Es|].
      injection H as _ ->. apply free_of_cons. split.
      * now apply Ascii.eqb_neq.
      * now apply (IH q).
Qed.

Lemma pop_cons (x : string) (l : list string) :
  l <> [] -> JS.pop (x :: l) = JS.pop l.
Proof. destruct l; [intros H; now elim H | reflexivity]. Qed.

(** Only what follows the last separator is left by [pop]. *)
Lemma pop_split_after (c : ascii) (stem rest : string) :
  JS.pop (JS.split c (stem ++ String c rest)) = JS.pop (JS.split c rest).
Proof.
  induction stem as [|a stem IH]; simpl.
  - rewrite Ascii.eqb_refl. apply pop_cons, split_nonempty.
  - destruct (Ascii.eqb a c).
    + rewrite pop_cons by apply split_nonempty. exact IH.
    + destruct (JS.split c (stem ++ String c rest)) as [|p ps] eqn:Es;
        [now apply split_nonempty in Es|].
      destruct ps as [|p' ps].
      * exfalso. apply split_single in Es. apply Es.
        clear. induction stem as [|b stem IH]; simpl; [now left | now right].
      * rewrite <- IH. reflexivity.
Qed.

(** X18: only what follows the last dot counts: for a piece [ext]
    without a dot, the extension of [stem.ext] is [ext] in lower case,
    whatever the stem and however many dots it holds, so two names with
    the same last piece get the same category. *)
Theorem getFileType_last_piece (stem ext : string) :
  free_of "." ext ->
  extension (stem ++ "." ++ ext) = JS.toLowerCase ext
  /\ forall stem', getFileType (stem ++ "." ++ ext) = getFileType (stem' ++ "." ++ ext).
Proof.
  intros H.
  assert (E : forall s, extension (s ++ "." ++ ext) = JS.toLowerCase ext).
  { intros s. unfold extension. simpl append.
    rewrite pop_split_after, (split_free _ _ H). simpl.
    destruct (JS.toLowerCase ext); reflexivity. }
  split; [apply E|].
  intros stem'. apply getFileType_depends_on_extension. now rewrite !E.
Qed.

Lemma getFileType_last_piece_witness :
  free_of "." "gz"
  /\ extension "backup.2024.tar.gz" = "gz"
  /\ getFileType "backup.2024.tar.gz" = getFileType "a.gz".
Proof.
  assert (H : free_of "." "gz").
  { unfold free_of. simpl. intros [H|[H|[]]]; discriminate H. }
  split; [exact H|].
  destruct (getFileType_last_piece "backup.2024.tar" "gz" H) as [H1 H2].
  split; [exact H1 | exact (H2 "a")].
Defined.

(** X19: the six tables of extensions do not overlap, so the category is
    decided by table membership alone: a name is a document, an image, a
    video, an audio file, an archive or code exactly when its extension is
    in the table of that category, and [other] exactly when its extension
    is in none of them. *)
Theorem getFileType_by_table (filename : string) :
  (getFileType filename = "document"
   <-> In (extension filename) ["pdf"; "doc"; "docx"])
  /\ (getFileType filename = "image"
      <-> In (extension filename) ["jpg"; "jpeg"; "png"; "gif"; "svg"])
  /\ (getFileType filename = "video"
      <-> In (extension filename) ["mp4"; "avi"; "mov"; "wmv"])
  /\ (getFileType filename = "audio"
      <-> In (extension filename) ["mp3"; "wav"; "flac"])
  /\ (getFileType filename = "archive"
      <-> In (extension filename) ["zip"; "rar"; "7z"])
  /\ (getFileType filename = "code"
      <-> In (extension filename) ["js"; "ts"; "jsx"; "tsx"; "html"; "css"])
  /\ (getFileType filename = "other" <-> ~ In (extension filename) known_extensions).
Proof.
  rewrite getFileType_extension. generalize (extension filename). intros e.
  repeat split.
  all: try (intros H;
            repeat match type of H with
                   | (if ?b then _ else _) = _ =>
                       let E := fresh "E" in
                       destruct b eqn:E; [try discriminate H|]
                   end;
            try discriminate H;
            match goal with
            | E : JS.array_includes _ _ = true |- In _ _ =>
                exact (proj1 (array_includes_In _ _) E)
            end).
  all: try (intros H; simpl in H;
            repeat (destruct H as [<-|H]; [reflexivity|]); now destruct H).
  - intros H Hin.
    repeat match type of H with
           | (if ?b then _ else _) = _ =>
               let E := fresh "E" in
               destruct b eqn:E; [discriminate H|]
           end.
    unfold known_extensions in Hin. simpl in Hin.
    repeat (destruct Hin as [<-|Hin]; [discriminate|]). exact Hin.
  - intros H. rewrite !array_includes_false; [reflexivity | | | | | |];
      intros Hin; apply H; unfold known_extensions; simpl in *; tauto.
Qed.

(** ** More about folders of paths *)

Lemma split_hd_free (c : ascii) (s : string) : free_of c (hd "" (JS.split c s)).
Proof.
  induction s as [|a s IH]; simpl; [intros []|].
  destruct (Ascii.eqb a c) eqn:E; [intros []|].
  destruct (JS.split c s) as [|p ps]; simpl in *.
  - apply free_of_cons. split; [now apply Ascii.eqb_neq | intros []].
  - apply free_of_cons. split; [now apply Ascii.eqb_neq | exact IH].
Qed.

Lemma split_at_separator (c : ascii) (s : string) :
  ~ free_of c s ->
  (1 < List.length (JS.split c s))%nat
  /\ exists rest, s = hd "" (JS.split c s) ++ String c rest.
Proof.
  induction s as [|a s IH]; intros H.
  - exfalso. apply H. intros [].
  - simpl. destruct (Ascii.eqb a c) eqn:E.
    + apply Ascii.eqb_eq in E. subst a. split.
      * pose proof (split_nonempty c s) as Hne.
        destruct (JS.split c s); [now elim Hne | simpl; lia].
      * now exists s.
    + assert (Hs : ~ free_of c s).
      { intros Hf. apply H. apply free_of_cons. split; [now apply Ascii.eqb_neq | exact Hf]. }
      destruct (IH Hs) as [Hlen [rest Hrest]].
      destruct (JS.split c s) as [|p ps]; [simpl in Hlen; lia|].
      split; [exact Hlen|]. exists rest. simpl in *. now rewrite <- Hrest.
Qed.

(** X20: the folder computed from a path never contains a slash; it is
    [Root] for a path without a slash, and for a path with a slash it is
    what the path holds before its first slash, empty when the path
    starts with one. *)
Theorem getFolderFromPath_first_segment (p : string) :
  free_of "/" (getFolderFromPath p)
  /\ (free_of "/" p -> getFolderFromPath p = "Root")
  /\ (~ free_of "/" p -> exists rest, p = getFolderFromPath p ++ "/" ++ rest).
Proof.
  split; [|split].
  - unfold getFolderFromPath.
    destruct (1 <? List.length (JS.split "/" p))%nat.
    + apply split_hd_free.
    + unfold free_of. simpl. intros [H|[H|[H|[H|[]]]]]; discriminate H.
  - apply getFolderFromPath_flat_name.
  - intros H. destruct (split_at_separator "/" p H) as [Hlen [rest Hrest]].
    exists rest. unfold getFolderFromPath.
    apply Nat.ltb_lt in Hlen. rewrite Hlen. exact Hrest.
Qed.

Lemma getFolderFromPath_first_segment_witness :
  free_of "/" "notes.txt"
  /\ ~ free_of "/" "/Design/logo.svg"
  /\ getFolderFromPath "notes.txt" = "Root"
  /\ exists rest, "/Design/logo.svg" = getFolderFromPath "/Design/logo.svg" ++ "/" ++ rest.
Proof.
  assert (H1 : free_of "/" "notes.txt").
  { unfold free_of. simpl. intros H.
    repeat (destruct H as [H|H]; [discriminate H|]). exact H. }
  assert (H2 : ~ free_of "/" "/Design/logo.svg").
  { intros H. apply H. now left. }
  split; [exact H1|]. split; [exact H2|].
  split.
  - exact (proj1 (proj2 (getFolderFromPath_first_segment "notes.txt")) H1).
  - exact (proj2 (proj2 (getFolderFromPath_first_segment "/Design/logo.svg")) H2).
Defined.

(** ** More about search and filter *)

(** Occurrence is transitive, so a name that contains the new query,
    case ignored, contains every query the new query contains. *)
Lemma contains_ci_shorter (s q q' : string) :
  contains_ci q' q -> contains_ci s q' -> contains_ci s q.
Proof.
  intros [a [b Hq]] [pre [post H]]. unfold contains_ci, substring_of.
  exists (pre ++ a), (b ++ post).
  now rewrite H, Hq, !append_assoc.
Qed.

Lemma filter_length_le {A : Type} (p q : A -> bool) (l : list A) :
  (forall x, p x = true -> q x = true) ->
  (List.length (filter p l) <= List.length (filter q l))%nat.
Proof.
  intros H. induction l as [|a l IH]; simpl; [lia|].
  destruct (p a) eqn:Ep.
  - rewrite (H a Ep). simpl. lia.
  - destruct (q a); simpl; lia.
Qed.

(** X21: narrowing can only shrink the view: when the new query
    contains the old one, case ignored, that is, when the lower-cased old
    query occurs in the lower-cased new query, which is how the filter
    itself compares, every record of the new view was in the old view and
    the new view is not longer; and the view for any folder selection is
    part of the view for [all]. *)
Theorem filteredFiles_narrows (files : list FileItem) (q q' sel : string) :
  contains_ci q' q ->
  (forall r, In r (filteredFiles files q' sel) -> In r (filteredFiles files q sel))
  /\ (List.length (filteredFiles files q' sel)
      <= List.length (filteredFiles files q sel))%nat
  /\ (forall r, In r (filteredFiles files q sel) -> In r (filteredFiles files q "all"))
  /\ (List.length (filteredFiles files q sel)
      <= List.length (filteredFiles files q "all"))%nat.
Proof.
  intros Hq.
  assert (H1 : forall r, matchesSearch q' r && matchesFolder sel r = true ->
                         matchesSearch q r && matchesFolder sel r = true).
  { intros r H. apply accepts_passes in H. apply accepts_passes.
    destruct H as [[Hn|[t [Ht Hc]]] Hf]; (split; [|exact Hf]).
    - left. now apply (contains_ci_shorter _ q q').
    - right. exists t. split; [exact Ht | now apply (contains_ci_shorter _ q q')]. }
  assert (H2 : forall r, matchesSearch q r && matchesFolder sel r = true ->
                         matchesSearch q r && matchesFolder "all" r = true).
  { intros r H. apply andb_true_iff in H. destruct H as [H _]. now rewrite H. }
  unfold filteredFiles. repeat split.
  - intros r Hr. apply filter_In in Hr. apply filter_In.
    split; [tauto | apply H1; tauto].
  - now apply filter_length_le.
  - intros r Hr. apply filter_In in Hr. apply filter_In.
    split; [tauto | apply H2; tauto].
  - now apply filter_length_le.
Qed.

Lemma filteredFiles_narrows_witness :
  contains_ci "Report" "REP"
  /\ (List.length (filteredFiles [sample_record] "Report" "Documents")
      <= List.length (filteredFiles [sample_record] "REP" "Documents"))%nat.
Proof.
  assert (H : contains_ci "Report" "REP") by (exists "", "ort"; reflexivity).
  split; [exact H|].
  exact (proj1 (proj2 (filteredFiles_narrows [sample_record] "REP" "Report" "Documents" H))).
Defined.

(** ** Download *)

(** X22: a download never changes the listing and never sends a request
    to the storage client.  For an identity the listing does not hold, or
    whose record has no URL or an empty one, nothing at all happens: no
    retrieval, no toast.  For a record with a URL the retrieval is
    started with that URL and the record's name as the suggested file
    name, and a "Download Started" toast is shown; when the DOM throws, a
    destructive "Download Failed" toast is shown instead. *)
Theorem handleFileDownload_outcomes (fileId : string) (dom : DomResponse) (st : State) :
  files (fst (handleFileDownload fileId dom st)) = files st
  /\ storageCalls (fst (handleFileDownload fileId dom st)) = storageCalls st
  /\ ((forall f, In f (files st) -> id f <> fileId) ->
      handleFileDownload fileId dom st = (st, None))
  /\ ((exists f, In f (files st) /\ id f = fileId) ->
      exists file,
        In file (files st) /\ id file = fileId
        /\ (url file = None \/ url file = Some "" ->
            handleFileDownload fileId dom st = (st, None))
        /\ (forall u, url file = Some u -> u <> "" ->
              (dom = DomOk ->
               snd (handleFileDownload fileId dom st) = Some (mkDownload u (name file))
               /\ toasts (fst (handleFileDownload fileId dom st))
                  = (toasts st
                     ++ [mkToast "Download Started" ("Downloading " ++ name file)
                           Default])%list)
              /\ (dom <> DomOk ->
                  toasts (fst (handleFileDownload fileId dom st))
                  = (toasts st
                     ++ [mkToast "Download Failed"
                           "An error occurred while downloading the file"
                           Destructive])%list))).
Proof.
  unfold handleFileDownload.
  split; [|split; [|split]].
  - destruct (find _ (files st)) as [file|]; [|reflexivity].
    destruct (url file) as [u|]; [|reflexivity].
    destruct (negb (JS.truthy u)); [reflexivity|]. destruct dom; reflexivity.
  - destruct (find _ (files st)) as [file|]; [|reflexivity].
    destruct (url file) as [u|]; [|reflexivity].
    destruct (negb (JS.truthy u)); [reflexivity|]. destruct dom; reflexivity.
  - intros H. apply find_none_iff in H. now rewrite H.
  - intros Hex. destruct (find_first fileId (files st) Hex) as [file [Hfind [Hin Hid]]].
    exists file. rewrite Hfind.
    split; [exact Hin|]. split; [exact Hid|]. split.
    + intros [Hu|Hu]; rewrite Hu; reflexivity.
    + intros u Hu Hne. rewrite Hu. destruct u as [|c u]; [now elim Hne|]. simpl.
      split.
      * intros ->. split; reflexivity.
      * intros Hd. destruct dom; [now elim Hd | reflexivity].
Qed.

Lemma handleFileDownload_outcomes_witness :
  (forall f, In f (files sample_state) -> id f <> "Images/logo.png")
  /\ handleFileDownload "Images/logo.png" DomOk sample_state = (sample_state, None)
  /\ (exists f, In f (files sample_state) /\ id f = "Documents/report.pdf")
  /\ snd (handleFileDownload "Documents/report.pdf" DomOk sample_state)
     = Some (mkDownload "https://storage.example.org/Documents/report.pdf" "report.pdf").
Proof.
  assert (H1 : forall f, In f (files sample_state) -> id f <> "Images/logo.png").
  { intros f [<-|[]]. discriminate. }
  assert (H2 : exists f, In f (files sample_state) /\ id f = "Documents/report.pdf").
  { exists sample_record. split; [now left | reflexivity]. }
  split; [exact H1|]. split.
  { exact (proj1 (proj2 (proj2 (handleFileDownload_outcomes "Images/logo.png" DomOk
                                  sample_state))) H1). }
  split; [exact H2|]. reflexivity.
Defined.

(** ** Preview and icons *)

Lemma rendered_when_other (t : string) (f : FileItem) (viewer : string -> Viewer) :
  type f <> t -> rendered_when t f viewer = [].
Proof.
  intros H. unfold rendered_when. apply String.eqb_neq in H. now rewrite H.
Qed.

Lemma rendered_when_length (t : string) (f : FileItem) (viewer : string -> Viewer) :
  (List.length (rendered_when t f viewer) <= 1)%nat.
Proof.
  unfold rendered_when. destruct (type f =? t); [|simpl; lia].
  destruct (url f) as [u|]; [|simpl; lia].
  destruct (JS.truthy u); simpl; lia.
Qed.

(** X23: the preview modal and the "View" entry of the menu agree: the
    modal renders at most one viewer; it renders one exactly when
    [canPreview] accepts the record's type and the record has a non-empty
    URL; and for the categories a name can get, [canPreview] refuses
    exactly archive, code and other. *)
Theorem preview_agrees_with_canPreview (f : FileItem) :
  (List.length (previewViewers f) <= 1)%nat
  /\ (previewViewers f <> []
      <-> canPreview (type f) = true /\ exists u, url f = Some u /\ u <> "")
  /\ (forall filename,
        canPreview (getFileType filename) = false
        <-> In (getFileType filename) ["archive"; "code"; "other"]).
Proof.
  assert (Hcases : type f = "image" \/ type f = "document" \/ type f = "video"
                   \/ type f = "audio" \/ canPreview (type f) = false).
  { unfold canPreview. destruct (JS.array_includes _ (type f)) eqn:E; [|tauto].
    apply array_includes_In in E. simpl in E. intuition auto. }
  assert (Hnone : canPreview (type f) = false -> previewViewers f = []).
  { intros H. unfold previewViewers, canPreview in *.
    rewrite !rendered_when_other; [reflexivity | | | |];
      intros Heq; rewrite Heq in H; discriminate H. }
  assert (Hone : forall t viewer,
             In t ["image"; "document"; "video"; "audio"] -> type f = t ->
             (rendered_when t f viewer <> []
              <-> exists u, url f = Some u /\ u <> "")).
  { intros t viewer _ Ht. unfold rendered_when. rewrite Ht, String.eqb_refl.
    destruct (url f) as [u|].
    - destruct u as [|c u]; simpl.
      + split; [intros H; now elim H | intros [u [[= <-] H]]; now elim H].
      + split; [intros _; eexists; split; [reflexivity | discriminate] | discriminate].
    - split; [intros H; now elim H | intros [u [H _]]; discriminate H]. }
  split; [|split].
  - destruct Hcases as [H|[H|[H|[H|H]]]];
      try (rewrite (Hnone H); simpl; lia); unfold previewViewers;
      rewrite ?(rendered_when_other "image"), ?(rendered_when_other "document"),
        ?(rendered_when_other "video"), ?(rendered_when_other "audio")
        by (rewrite H; discriminate);
      simpl; rewrite ?List.app_nil_r; apply rendered_when_length.
  - destruct Hcases as [H|[H|[H|[H|H]]]].
    5: { rewrite (Hnone H), H. split; [intros H0; now elim H0 | intros [H0 _]; discriminate H0]. }
    all: unfold previewViewers;
      rewrite ?(rendered_when_other "image"), ?(rendered_when_other "document"),
        ?(rendered_when_other "video"), ?(rendered_when_other "audio")
        by (rewrite H; discriminate);
      simpl; rewrite ?List.app_nil_r;
      rewrite Hone by (simpl; tauto || exact H);
      rewrite H; unfold canPreview; simpl; tauto.
  - intros filename. pose proof (getFileType_category filename) as Hc.
    unfold categories in Hc. simpl in Hc.
    destruct Hc as [<-|[<-|[<-|[<-|[<-|[<-|[<-|[]]]]]]]]; simpl;
      split; intros H; try discriminate H; try reflexivity; try tauto;
      repeat (destruct H as [H|H]; [discriminate H|]); destruct H.
Qed.

(** X24: under either theme the seven categories get seven different
    icon elements, so the icon tells the category; code and other share
    the [File] glyph and differ by colour only; and a type outside the
    seven categories gets the icon of other. *)
Theorem getFileIcon_tells_category (theme t1 t2 : string) :
  In t1 categories -> In t2 categories ->
  (getFileIcon theme t1 = getFileIcon theme t2 <-> t1 = t2)
  /\ icon (getFileIcon theme "code") = icon (getFileIcon theme "other")
  /\ className (getFileIcon theme "code") <> className (getFileIcon theme "other")
  /\ (forall t, ~ In t categories -> getFileIcon theme t = getFileIcon theme "other").
Proof.
  intros H1 H2. split; [|split; [|split]].
  - split; [|now intros ->].
    unfold categories in H1, H2. simpl in H1, H2.
    destruct H1 as [<-|[<-|[<-|[<-|[<-|[<-|[<-|[]]]]]]]];
      destruct H2 as [<-|[<-|[<-|[<-|[<-|[<-|[<-|[]]]]]]]];
      intros H; try reflexivity; exfalso;
      unfold getFileIcon in H; simpl in H;
      destruct (theme =? "dark"); discriminate H.
  - reflexivity.
  - unfold getFileIcon. simpl. destruct (theme =? "dark"); discriminate.
  - intros t Ht. unfold getFileIcon.
    assert (E : forall c, In c categories -> (t =? c) = false).
    { intros c Hc. apply String.eqb_neq. intros ->. contradiction. }
    rewrite !E by (unfold categories; simpl; tauto). reflexivity.
Qed.

Lemma getFileIcon_tells_category_witness :
  In "image" categories /\ In "video" categories
  /\ getFileIcon "dark" "image" <> getFileIcon "dark" "video".
Proof.
  assert (H1 : In "image" categories) by (unfold categories; simpl; tauto).
  assert (H2 : In "video" categories) by (unfold categories; simpl; tauto).
  split; [exact H1|]. split; [exact H2|].
  intros H.
  apply (proj1 (proj1 (getFileIcon_tells_category "dark" "image" "video" H1 H2))) in H.
  discriminate H.
Defined.

(** ** The counters of the header *)

Lemma countOfType_cons (t : string) (r : FileItem) (l : list FileItem) :
  countOfType t (r :: l)
  = Nat.add (if type r =? t then 1%nat else 0%nat) (countOfType t l).
Proof. unfold countOfType. simpl. destruct (type r =? t); reflexivity. Qed.

Lemma counters_partition (l : list FileItem) :
  Forall (fun r => In (type r) categories) l ->
  list_sum (map (fun t => countOfType t l) categories) = List.length l.
Proof.
  induction 1 as [|r l Hr _ IH]; [reflexivity|].
  unfold categories in *. cbn [map list_sum] in *. rewrite !countOfType_cons.
  set (n1 := countOfType "document" l) in *. set (n2 := countOfType "image" l) in *.
  set (n3 := countOfType "video" l) in *. set (n4 := countOfType "audio" l) in *.
  set (n5 := countOfType "archive" l) in *. set (n6 := countOfType "code" l) in *.
  set (n7 := countOfType "other" l) in *.
  cbn [List.length]. rewrite <- IH. clear IH.
  simpl in Hr.
  destruct Hr as [<-|[<-|[<-|[<-|[<-|[<-|[<-|[]]]]]]]]; cbn; lia.
Qed.

Lemma getFileType_image (filename : string) :
  getFileType filename = "image"
  <-> In (extension filename) ["jpg"; "jpeg"; "png"; "gif"; "svg"].
Proof.
  rewrite getFileType_extension. generalize (extension filename). intros e. split.
  - intros H.
    destruct (JS.array_includes ["pdf"; "doc"; "docx"] e); [discriminate H|].
    destruct (JS.array_includes ["jpg"; "jpeg"; "png"; "gif"; "svg"] e) eqn:E.
    + now apply array_includes_In.
    + repeat match type of H with
             | (if ?b then _ else _) = _ => destruct b; [discriminate H|]
             end.
      discriminate H.
  - intros H. simpl in H.
    repeat (destruct H as [<-|H]; [reflexivity|]). now destruct H.
Qed.

Lemma count_images (env : Env) (l : list FileItem) :
  Forall (well_made env) l ->
  countOfType "image" l
  = List.length
      (filter (fun r => JS.array_includes ["jpg"; "jpeg"; "png"; "gif"; "svg"]
                          (extension (name r))) l).
Proof.
  unfold countOfType. induction 1 as [|r rs [Ht _] _ IH]; [reflexivity|].
  cbn [filter]. rewrite Ht.
  pose proof (getFileType_image (name r)) as Himg.
  destruct (JS.array_includes ["jpg"; "jpeg"; "png"; "gif"; "svg"]
              (extension (name r))) eqn:E.
  - apply array_includes_In in E. apply Himg in E. rewrite E.
    change ("image" =? "image") with true. cbn [List.length].
    now rewrite IH.
  - destruct (getFileType (name r) =? "image") eqn:E'; [|exact IH].
    apply String.eqb_eq in E'. apply Himg in E'. apply array_includes_In in E'.
    congruence.
Qed.

(** X25: the "Images" and "Documents" counters of the header never add
    up to more than "Total Files"; and in every state the component
    reaches from its first render the counts of the seven categories add
    up to the total exactly, and the "Images" counter is the number of
    records whose name has an image extension. *)
Theorem header_counters (env : Env) (acts : list Action) (l : list FileItem) :
  (countOfType "image" l + countOfType "document" l <= List.length l)%nat
  /\ list_sum (map (fun t => countOfType t (files (run env acts initial))) categories)
     = List.length (files (run env acts initial))
  /\ countOfType "image" (files (run env acts initial))
     = List.length
         (filter (fun r => JS.array_includes ["jpg"; "jpeg"; "png"; "gif"; "svg"]
                             (extension (name r)))
            (files (run env acts initial))).
Proof.
  assert (H0 : Forall (well_made env) (files initial)) by constructor.
  pose proof (run_keeps_well_made env acts initial H0) as H.
  split; [|split].
  - induction l as [|r l IH]; [unfold countOfType; simpl; lia|].
    rewrite !countOfType_cons. cbn [List.length].
    destruct (type r =? "image") eqn:E1; destruct (type r =? "document") eqn:E2;
      try lia.
    apply String.eqb_eq in E1, E2. congruence.
  - apply counters_partition. eapply Forall_impl; [|exact H]. simpl.
    intros r [Ht _]. rewrite Ht. apply getFileType_category.
  - now apply (count_images env).
Qed.
